(** * The identity service of cothority: threshold voting on a shared config

    A shallow embedding of [services/identity/service.go].  Every server
    of a roster runs one [Service]; a request lands on one of them (the
    coordinator), which validates it, broadcasts an event to the roster
    and, on quorum, asks the skipchain for a new data block and
    broadcasts that block.  Each server applies the events it receives
    with [Propagate]. *)

From Stdlib Require Import ZArith Lia.
From stdpp Require Import base option strings list gmap fin_maps.

Local Open Scope string_scope.

(** ** Data model *)

(** [type ID skipchain.SkipBlockID], a byte slice.  [None] is the nil
    slice, which [Propagate] tells apart from every other value. *)
Definition ID := option string.

(** [string(id)], the key under which the registry files an identity. *)
Definition key (id : ID) : string := default "" id.

(** [len(id)] (the capacity of the slice is taken equal to its length). *)
Definition len_ID (id : ID) : nat := String.length (key id).

(** Modelled from the spec: the public key of a device and a Schnorr
    signature are values of the crypto package, outside the sources at
    hand; both are kept as opaque byte strings. *)
Definition Point := string.
Definition SchnorrSig := string.

(** Modelled from the spec: [Config] is declared next to the service, in
    a file that is not at hand.  The service reads two of its fields:
    [Threshold], a Go [int], and [Device], the map from a device name to
    its public key ([owner.Point]). *)
Record Config := {
  Threshold : Z;
  Device : gmap string Point
}.

(** Modelled from the spec: [skipchain.SkipBlock], of which the service
    reads the hash (the identity of a chain is the hash of its genesis
    data block) and the payload bytes.  The roster it carries is the
    network the request runs on, see [Net]. *)
Record SkipBlock := {
  sb_Hash : ID;
  sb_Data : string
}.

(** [type storage struct]: the embedded mutex is the flag [locked];
    every pointer field is an option, [None] being nil; [Votes] is a Go
    map, which is nil until [make] is called. *)
Record storage := {
  locked : bool;
  Latest : option Config;
  Proposed : option Config;
  Votes : option (gmap string (option SchnorrSig));
  Root : option SkipBlock;
  Data : option SkipBlock
}.

(** [type Service struct]: the registry of identities held by one server.
    [identitiesMutex] is taken and released inside [getIdentityStorage]
    and [setIdentityStorage] only, so it is free between any two steps
    and is left out. *)
Record Service := {
  identities : gmap string storage
}.

(** The messages of the service.  Their declarations are not at hand;
    the fields are those the handlers read. *)
Record ProposeSend_msg := {
  ps_ID : ID;
  ps_Config : option Config
}.

Record ProposeVote_msg := {
  pv_ID : ID;
  pv_Signer : string;
  pv_Signature : option SchnorrSig
}.

Record UpdateSkipBlock_msg := {
  usb_ID : ID;
  usb_Latest : option SkipBlock
}.

(** [network.Body] as far as the type switch of [Propagate] looks at it.
    [PropagateIdentity] embeds a [*storage]. *)
Inductive Msg :=
| MsgProposeSend (p : ProposeSend_msg)
| MsgProposeVote (v : ProposeVote_msg)
| MsgUpdateSkipBlock (u : UpdateSkipBlock_msg)
| MsgPropagateIdentity (pi : option storage)
| MsgOther.

(** What [network.UnmarshalRegistered] hands back when it succeeds. *)
Inductive Body :=
| BodyConfig (c : Config)
| BodyOther.

(** ** Results of a call *)

(** A call returns, dies on a run-time panic (nil dereference, write to a
    nil map, slice out of range), or waits for ever on a mutex that
    nobody will release. *)
Inductive outcome (A : Type) :=
| Returns (a : A)
| Panics
| Blocks.
Arguments Returns {A} a.
Arguments Panics {A}.
Arguments Blocks {A}.

Definition obind {A B} (m : outcome A) (f : A → outcome B) : outcome B :=
  match m with
  | Returns a => f a
  | Panics => Panics
  | Blocks => Blocks
  end.

#[global] Instance outcome_ret : MRet outcome := λ A, Returns.
#[global] Instance outcome_bind : MBind outcome := λ A B f m, obind m f.

(** The error texts of the service, under the names the specification
    gives them. *)
Definition NotFound := "Didn't find identity".
Definition SignerUnknown := "Didn't find signer".
Definition NoProposal := "No proposed block".
Definition HashError := "Couldn't get hash".
Definition DuplicateVote := "Already voted for that block".
Definition BadSignature (e : string) := "Wrong signature: " +:+ e.

(** ** The collaborators of the service

    The chain engine, the signature check, the hash of a config and the
    wire format live in other packages; the service is modelled over any
    implementation of them. *)
Class Externals := {
  (** [network.UnmarshalRegistered]: an error or the decoded body. *)
  UnmarshalRegistered : string → string + Body;
  (** The method [Hash] of a config: the digest, or [None] when it
      returns an error. *)
  Config_Hash : Config → option string;
  (** [crypto.VerifySchnorr suite pub hash sig]: [None] when the
      signature is good, the error text otherwise. *)
  VerifySchnorr : Point → string → SchnorrSig → option string;
  (** [skipchain.Client.CreateRoster]: the root block or an error. *)
  CreateRoster : string + SkipBlock;
  (** [skipchain.Client.CreateData root ... config]: the updated root
      and the genesis data block, or an error. *)
  CreateData : SkipBlock → option Config → string + (SkipBlock * SkipBlock);
  (** [skipchain.Client.ProposeData root data config]: [reply.Latest],
      the appended block, or an error. *)
  ProposeData : option SkipBlock → option SkipBlock → option Config →
                string + SkipBlock;
  (** The error, if any, with which [manage.PropagateStartAndWait]
      refuses to start a broadcast of the given message. *)
  PropagateStartError : Msg → option string
}.


(** ** Replica side: [Propagate] *)

Definition with_lock (b : bool) (sid : storage) : storage :=
  {| locked := b; Latest := Latest sid; Proposed := Proposed sid;
     Votes := Votes sid; Root := Root sid; Data := Data sid |}.

(** [getIdentityStorage]: the entry of the registry, nil when absent. *)
Definition getIdentityStorage (s : Service) (id : ID) : option storage :=
  identities s !! key id.

(** [setIdentityStorage].  Its log line slices [id[0:8]] and reads
    [is.Latest.Device] before the registry is written. *)
Definition setIdentityStorage (s : Service) (id : ID) (ids : storage)
  : outcome Service :=
  if decide (len_ID id < 8)%nat then Panics
  else match Latest ids with
       | None => Panics
       | Some _ => Returns {| identities := <[key id := ids]> (identities s) |}
       end.

(** The storage object behind the pointer [sid] is updated in place: the
    registry keeps pointing at it. *)
Definition store (s : Service) (id : ID) (sid : storage) : Service :=
  {| identities := <[key id := sid]> (identities s) |}.

(** The identity a message is about, as the first type switch computes it
    for the three kinds it does not settle on the spot. *)
Definition msg_ID (msg : Msg) : ID :=
  match msg with
  | MsgProposeSend p => ps_ID p
  | MsgProposeVote v => pv_ID v
  | MsgUpdateSkipBlock u => usb_ID u
  | _ => None
  end.

(** ** Requests and their bookkeeping *)

(** The servers of the roster of the identity at hand: the one the
    request landed on, and the others. *)
Record Net := {
  self : Service;
  peers : list Service
}.

(** [type AddIdentity struct]; its roster is the network. *)
Record AddIdentity_msg := {
  ai_Config : option Config
}.

(** The calls a request makes to its collaborators. *)
Inductive Effect :=
| Broadcast (msg : Msg)
| Append (root data : option SkipBlock) (config : option Config)
| NewRoster
| NewData (root : SkipBlock) (config : option Config).

(** A request in progress: the calls made so far, in order, and how the
    request stands.  The calls are on record also when the request
    panics or hangs afterwards. *)
Record run (A : Type) := Run {
  trace : list Effect;
  result : outcome A
}.
Arguments Run {A} trace result.
Arguments trace {A} r.
Arguments result {A} r.

#[global] Instance run_ret : MRet run := λ A a, Run [] (Returns a).
#[global] Instance run_bind : MBind run := λ A B f m,
  match result m with
  | Returns a => Run (trace m ++ trace (f a)) (result (f a))
  | Panics => Run (trace m) Panics
  | Blocks => Run (trace m) Blocks
  end.

(** A step that calls no collaborator. *)
Definition quiet {A} (o : outcome A) : run A := Run [] o.

(** A call to a collaborator. *)
Definition call {A} (e : Effect) (o : outcome A) : run A := Run [e] o.

(** Dereferencing a pointer. *)
Definition deref {A} (p : option A) : outcome A :=
  match p with
  | Some a => Returns a
  | None => Panics
  end.

(** [len(sid.Votes)]; the length of a nil map is 0. *)
Definition len_Votes (sid : storage) : Z :=
  Z.of_nat (from_option size 0%nat (Votes sid)).

(** [_, exists := sid.Votes[signer]]; a nil map has no entry. *)
Definition voted (sid : storage) (signer : string) : bool :=
  match Votes sid with
  | None => false
  | Some votes => bool_decide (is_Some (votes !! signer))
  end.

(** [len(sid.Votes) >= sid.Latest.Threshold ||
     len(sid.Votes) == len(sid.Latest.Device)] *)
Definition quorum (sid : storage) : outcome bool :=
  latest ← deref (Latest sid);
  Returns (bool_decide (Threshold latest ≤ len_Votes sid)%Z
           || bool_decide (len_Votes sid = Z.of_nat (size (Device latest)))).

Definition with_self (n : Net) (s : Service) : Net :=
  {| self := s; peers := peers n |}.

(** What a handler hands back: an error text or its reply. *)
Definition reply (A : Type) : Type := string + A.

(** The storage once the vote [v] is written into the map [votes]. *)
Definition record_vote (sid : storage) (v : ProposeVote_msg)
    (votes : gmap string (option SchnorrSig)) : storage :=
  {| locked := locked sid; Latest := Latest sid; Proposed := Proposed sid;
     Votes := Some (<[pv_Signer v := pv_Signature v]> votes);
     Root := Root sid; Data := Data sid |}.

(** The commit step has fired when the request has asked the chain
    engine to append a block. *)
Definition is_Append (e : Effect) : bool :=
  match e with
  | Append _ _ _ => true
  | _ => false
  end.

Definition commit_fired (calls : list Effect) : bool := existsb is_Append calls.

Section Service.
Context `{Ext : Externals}.

(** The second type switch of [Propagate], run on the storage of the
    identity with its mutex held.  The result is the storage as the
    handler leaves it and what it passed to [log.Error]. *)
Definition apply_locked (sid : storage) (msg : Msg)
  : outcome (storage * list string) :=
  match msg with
  | MsgProposeSend p =>
      Returns ({| locked := locked sid; Latest := Latest sid;
                  Proposed := ps_Config p; Votes := Some ∅;
                  Root := Root sid; Data := Data sid |}, [])
  | MsgProposeVote v =>
      match Votes sid with
      | None => Panics
      | Some votes =>
          Returns (record_vote sid v votes, [])
      end
  | MsgUpdateSkipBlock u =>
      match usb_Latest u with
      | None => Panics
      | Some skipblock =>
          match UnmarshalRegistered (sb_Data skipblock) with
          | inl err => Returns (sid, [err])
          | inr BodyOther => Returns (sid, ["<nil>"])
          | inr (BodyConfig al) =>
              Returns ({| locked := locked sid; Latest := Some al;
                          Proposed := None; Votes := Votes sid;
                          Root := Root sid; Data := Some skipblock |}, [])
          end
      end
  | _ => Returns (sid, [])
  end.

(** [func (s *Service) Propagate(msg network.Body)]: the state of the
    server afterwards and the lines it sent to [log.Error]. *)
Definition Propagate (s : Service) (msg : Msg)
  : outcome (Service * list string) :=
  match msg with
  | MsgPropagateIdentity pi =>
      match pi with
      | None => Panics
      | Some ids =>
          match Data ids with
          | None => Panics
          | Some data =>
              let id := sb_Hash data in
              match getIdentityStorage s id with
              | Some _ => Returns (s, ["Couldn't store new identity"])
              | None =>
                  s' ← setIdentityStorage s id ids;
                  Returns (s', [])
              end
          end
      end
  | _ =>
      let id := msg_ID msg in
      match id with
      | None => Returns (s, [])
      | Some _ =>
          match getIdentityStorage s id with
          | None => Returns (s, ["Didn't find entity in"])
          | Some sid =>
              (* sid.Lock(); defer sid.Unlock() *)
              if locked sid then Blocks
              else
                r ← apply_locked (with_lock true sid) msg;
                Returns (store s id (with_lock false r.1), r.2)
          end
      end
  end.

(** ** The roster and its broadcast *)

(** What one member does with a broadcast event: it runs [Propagate] and
    acknowledges.  A member whose handler panics or waits on a held
    mutex sends no acknowledgement; its registry is as before, since
    [Propagate] writes nothing ahead of either. *)
Definition deliver (msg : Msg) (r : Service) : Service * nat :=
  match Propagate r msg with
  | Returns r' => (r'.1, 1%nat)
  | _ => (r, 0%nat)
  end.

(** Modelled from the spec: [manage.PropagateStartAndWait], whose code is
    not at hand.  The event goes to every member of the roster, each of
    which applies it with [Propagate]; the call waits a bounded time and
    returns the number of acknowledgements, and it never fails for want
    of them.  It may refuse to start ([PropagateStartError]), in which
    case nothing is delivered.  A panic of the handler on the calling
    server takes the request down with it. *)
Definition PropagateStartAndWait (n : Net) (msg : Msg)
  : outcome (Net * (string + nat)) :=
  match PropagateStartError msg with
  | Some err => Returns (n, inl err)
  | None =>
      let others := deliver msg <$> peers n in
      let acks := foldr plus 0%nat (snd <$> others) in
      match Propagate (self n) msg with
      | Panics => Panics
      | Blocks =>
          Returns ({| self := self n; peers := fst <$> others |}, inr acks)
      | Returns s' =>
          Returns ({| self := s'.1; peers := fst <$> others |}, inr (S acks))
      end
  end.

(** ** Coordinator side *)

(** The commit step of [ProposeVote] (lines 183 to 204): append a block
    to the data chain, then broadcast it.  The pointer [sid] designates
    the entry [id] of the registry of the coordinator, which is read
    afresh after the broadcast. *)
Definition commit (n : Net) (id : ID) (sid : storage)
  : run (Net * reply (option SkipBlock)) :=
  _ ← quiet (deref (Proposed sid));
  appended ← call (Append (Root sid) (Data sid) (Proposed sid))
                  (Returns (ProposeData (Root sid) (Data sid) (Proposed sid)));
  match appended with
  | inl err => mret (n, inl err)
  | inr latest =>
      _ ← quiet match UnmarshalRegistered (sb_Data latest) with
                | inr (BodyConfig _) => Returns ()
                | _ => Panics
                end;
      let usb := MsgUpdateSkipBlock
                   {| usb_ID := id; usb_Latest := Some latest |} in
      _ ← quiet (deref (Root sid));
      r ← call (Broadcast usb) (PropagateStartAndWait n usb);
      match r.2 with
      | inl err => mret (r.1, inl err)
      | inr _ =>
          sid ← quiet (deref (getIdentityStorage (self r.1) id));
          mret (r.1, inr (Data sid))
      end
  end.

(** [ProposeVote] once the vote has passed the local checks (lines 176
    to 206): broadcast the vote, look at the votes the coordinator now
    holds, and commit if they make a quorum. *)
Definition vote_and_commit (n : Net) (sid : storage) (v : ProposeVote_msg)
  : run (Net * reply (option SkipBlock)) :=
  let id := pv_ID v in
  _ ← quiet (deref (Root sid));
  r ← call (Broadcast (MsgProposeVote v))
           (PropagateStartAndWait n (MsgProposeVote v));
  match r.2 with
  | inl err => mret (r.1, inl err)
  | inr _ =>
      let n := r.1 in
      sid ← quiet (deref (getIdentityStorage (self n) id));
      enough ← quiet (quorum sid);
      if enough : bool then commit n id sid
      else mret (n, inr None)
  end.

(** The local checks of [ProposeVote] (lines 152 to 173), run with the
    mutex of [sid] held: an error text, or nothing when the vote may go
    out. *)
Definition check_vote (sid : storage) (v : ProposeVote_msg)
  : outcome (option string) :=
  _ ← deref (Proposed sid);
  latest ← deref (Latest sid);
  match Device latest !! pv_Signer v with
  | None => Returns (Some SignerUnknown)
  | Some owner =>
      match Proposed sid with
      | None => Returns (Some NoProposal)
      | Some proposed =>
          match Config_Hash proposed with
          | None => Returns (Some HashError)
          | Some hash =>
              if voted sid (pv_Signer v) then Returns (Some DuplicateVote)
              else
                match pv_Signature v with
                | Some sig => Returns (BadSignature <$> VerifySchnorr owner hash sig)
                | None => Returns None
                end
          end
      end
  end.

(** The signature of a vote stands the check of line 168: there is none,
    or it verifies under the key of the signer against the digest. *)
Definition signature_passes (owner : Point) (hash : string)
    (v : ProposeVote_msg) : Prop :=
  match pv_Signature v with
  | Some sig => VerifySchnorr owner hash sig = None
  | None => True
  end.

(** [func (s *Service) ProposeVote]: the calls made to the collaborators,
    the network afterwards and the reply.  [sid.Unlock()] is reached on
    the passing path only: an error return of the local checks leaves
    the mutex held. *)
Definition ProposeVote (n : Net) (v : ProposeVote_msg)
  : run (Net * reply (option SkipBlock)) :=
  let id := pv_ID v in
  match getIdentityStorage (self n) id with
  | None => mret (n, inl NotFound)
  | Some sid =>
      if locked sid then quiet Blocks
      else
        let sid := with_lock true sid in
        let held := with_self n (store (self n) id sid) in
        verdict ← quiet (check_vote sid v);
        match verdict with
        | Some err => mret (held, inl err)
        | None =>
            let sid := with_lock false sid in
            vote_and_commit (with_self n (store (self n) id sid)) sid v
        end
  end.

(** The line [AddIdentity] and [ProposeSend] send to [log.Warn] when the
    replies fall short of [len(roster.List)]. *)
Definition short_of (n : Net) (replies : nat) : list string :=
  if decide (replies = S (length (peers n))) then [] else ["Did only get"].

(** [func (s *Service) ProposeSend]: the calls made, the network
    afterwards, the lines sent to [log.Warn] and the reply. *)
Definition ProposeSend (n : Net) (p : ProposeSend_msg)
  : run (Net * list string * reply ()) :=
  match getIdentityStorage (self n) (ps_ID p) with
  | None => mret (n, [], inl "Didn't find Identity")
  | Some sid =>
      _ ← quiet (deref (Root sid));
      r ← call (Broadcast (MsgProposeSend p))
               (PropagateStartAndWait n (MsgProposeSend p));
      match r.2 with
      | inl err => mret (r.1, [], inl err)
      | inr replies => mret (r.1, short_of n replies, inr ())
      end
  end.

(** [func (s *Service) AddIdentity]: the calls made, the network
    afterwards, the lines sent to [log.Warn] and the reply, which carries
    the root and the data block of the new chain. *)
Definition AddIdentity (n : Net) (ai : AddIdentity_msg)
  : run (Net * list string * reply (SkipBlock * SkipBlock)) :=
  created ← call NewRoster (Returns CreateRoster);
  match created with
  | inl err => mret (n, [], inl err)
  | inr root =>
      created ← call (NewData root (ai_Config ai))
                     (Returns (CreateData root (ai_Config ai)));
      match created with
      | inl err => mret (n, [], inl err)
      | inr (root, data) =>
          let ids := {| locked := false; Latest := ai_Config ai;
                        Proposed := None; Votes := None;
                        Root := Some root; Data := Some data |} in
          let msg := MsgPropagateIdentity (Some ids) in
          r ← call (Broadcast msg) (PropagateStartAndWait n msg);
          match r.2 with
          | inl err => mret (r.1, [], inl err)
          | inr replies =>
              mret (r.1, short_of n replies, inr (root, data))
          end
      end
  end.

End Service.

(** ** The read-only requests *)

(** [type ConfigUpdate struct] and [type ProposeFetch struct]: the
    request names the identity, the reply carries a config back. *)
Record ConfigUpdate_msg := {
  cu_ID : ID;
  cu_AccountList : option Config
}.

Record ProposeFetch_msg := {
  pf_ID : ID;
  pf_AccountList : option Config
}.

(** [func (s *Service) ConfigUpdate]: [sid.Latest], read with the mutex
    of the storage held and released on return. *)
Definition ConfigUpdate (n : Net) (cu : ConfigUpdate_msg)
  : run (Net * reply ConfigUpdate_msg) :=
  match getIdentityStorage (self n) (cu_ID cu) with
  | None => mret (n, inl "Didn't find Identity")
  | Some sid =>
      if locked sid then quiet Blocks
      else
        (* sid.Lock(); defer sid.Unlock() *)
        let sid := with_lock true sid in
        mret (with_self n (store (self n) (cu_ID cu) (with_lock false sid)),
              inr {| cu_ID := cu_ID cu; cu_AccountList := Latest sid |})
  end.

(** [func (s *Service) ProposeFetch]: [sid.Proposed], read the same
    way. *)
Definition ProposeFetch (n : Net) (cnc : ProposeFetch_msg)
  : run (Net * reply ProposeFetch_msg) :=
  match getIdentityStorage (self n) (pf_ID cnc) with
  | None => mret (n, inl "Didn't find Identity")
  | Some sid =>
      if locked sid then quiet Blocks
      else
        let sid := with_lock true sid in
        mret (with_self n (store (self n) (pf_ID cnc) (with_lock false sid)),
              inr {| pf_ID := pf_ID cnc; pf_AccountList := Proposed sid |})
  end.

(** [func newIdentityService]: a server starts with an empty registry. *)
Definition newIdentityService : Service := {| identities := ∅ |}.

(** The entry of the registry an event is about, if it is about one:
    the identity named by the three events of a round, the hash of the
    genesis data block for [PropagateIdentity]. *)
Definition event_key (msg : Msg) : option string :=
  match msg with
  | MsgPropagateIdentity (Some ids) => (λ data, key (sb_Hash data)) <$> Data ids
  | MsgPropagateIdentity None => None
  | _ => msg_ID msg
  end.

(** The servers of a network, the coordinator first. *)
Definition members (n : Net) : list Service := self n :: peers n.

(** ** A small deployment

    Two devices share an identity hosted by three servers.  The
    collaborators are as simple as can be: payloads are the names of the
    configs, a signature is good when it spells out the key and the
    digest, the chain engine always answers. *)
Module Scenario.

Definition C0 : Config :=
  {| Threshold := 2; Device := {[ "A" := "pkA"; "B" := "pkB" ]} |}.

Definition C1 : Config :=
  {| Threshold := 2; Device := {[ "A" := "pkA"; "B" := "pkB"; "C" := "pkC" ]} |}.

Definition root0 : SkipBlock := {| sb_Hash := Some "rootchain"; sb_Data := "" |}.
Definition data0 : SkipBlock := {| sb_Hash := Some "identity0"; sb_Data := "C0" |}.
Definition data1 : SkipBlock := {| sb_Hash := Some "block0001"; sb_Data := "C1" |}.

#[local] Instance ext : Externals := {|
  UnmarshalRegistered bytes :=
    if decide (bytes = "C0") then inr (BodyConfig C0)
    else if decide (bytes = "C1") then inr (BodyConfig C1)
    else if decide (bytes = "other") then inr BodyOther
    else inl "unknown type";
  Config_Hash _ := Some "digest";
  VerifySchnorr pub hash sig :=
    if decide (sig = pub +:+ hash) then None else Some "invalid";
  CreateRoster := inr root0;
  CreateData root _ := inr (root, data0);
  ProposeData _ _ _ := inr data1;
  PropagateStartError _ := None
|}.

Definition id0 : ID := Some "identity0".

(** A server that holds nothing, and the network of three of them. *)
Definition empty_server : Service := {| identities := ∅ |}.
Definition net0 : Net :=
  {| self := empty_server; peers := [empty_server; empty_server] |}.

(** The storage of the identity right after [AddIdentity]. *)
Definition fresh : storage :=
  {| locked := false; Latest := Some C0; Proposed := None; Votes := None;
     Root := Some root0; Data := Some data0 |}.

(** The storage in the middle of a round: [C1] is proposed and device A
    has approved it. *)
Definition voting : storage :=
  {| locked := false; Latest := Some C0; Proposed := Some C1;
     Votes := Some {[ "A" := Some "pkAdigest" ]};
     Root := Some root0; Data := Some data0 |}.

(** The storage of the round of [voting] once it is committed: the
    config is installed, the proposal is gone, the vote of A is still
    on record. *)
Definition after_commit : storage :=
  {| locked := false; Latest := Some C1; Proposed := None;
     Votes := Some {[ "A" := Some "pkAdigest" ]};
     Root := Some root0; Data := Some data1 |}.

(** The storage when the round has just been opened: [C1] is proposed
    and nobody has voted. *)
Definition opened : storage :=
  {| locked := false; Latest := Some C0; Proposed := Some C1;
     Votes := Some ∅; Root := Some root0; Data := Some data0 |}.

(** An identity of one device, with the threshold at one, in a round. *)
Definition C_solo : Config :=
  {| Threshold := 1; Device := {[ "A" := "pkA" ]} |}.

Definition solo : storage :=
  {| locked := false; Latest := Some C_solo; Proposed := Some C1;
     Votes := Some ∅; Root := Some root0; Data := Some data0 |}.

(** The same collaborators on a day the chain engine is down. *)
Definition ext_engine_down : Externals :=
  {| UnmarshalRegistered := @UnmarshalRegistered ext;
     Config_Hash := @Config_Hash ext;
     VerifySchnorr := @VerifySchnorr ext;
     CreateRoster := inl "engine down";
     CreateData _ _ := inl "engine down";
     ProposeData _ _ _ := inl "engine down";
     PropagateStartError := @PropagateStartError ext |}.

(** A committed block whose payload is not a config. *)
Definition junk : UpdateSkipBlock_msg :=
  {| usb_ID := id0;
     usb_Latest := Some {| sb_Hash := Some "block0002"; sb_Data := "junk" |} |}.

Definition server (sid : storage) : Service :=
  {| identities := {[ "identity0" := sid ]} |}.

Definition net_of (sid : storage) : Net :=
  {| self := server sid; peers := [server sid; server sid] |}.

Definition vote (signer : string) (sig : option SchnorrSig) : ProposeVote_msg :=
  {| pv_ID := id0; pv_Signer := signer; pv_Signature := sig |}.

Definition committed : UpdateSkipBlock_msg :=
  {| usb_ID := id0; usb_Latest := Some data1 |}.

End Scenario.

(** * Properties *)

(** ** Bookkeeping lemmas *)

(** Unfold the plumbing of the two monads. *)
Ltac plumb :=
  unfold mbind, mret, outcome_bind, outcome_ret, obind in *; simpl in *.
Ltac plumb_run :=
  unfold mbind, mret, run_bind, run_ret, quiet, call in *; simpl in *.

Lemma with_lock_idem (b c : bool) (sid : storage) :
  with_lock b (with_lock c sid) = with_lock b sid.
Proof. reflexivity. Qed.

Lemma with_lock_same (sid : storage) : with_lock (locked sid) sid = sid.
Proof. by destruct sid. Qed.

Lemma with_lock_free (sid : storage) :
  locked sid = false → with_lock false sid = sid.
Proof. intros <-. apply with_lock_same. Qed.

Lemma store_same (s : Service) (id : ID) (sid : storage) :
  getIdentityStorage s id = Some sid → store s id sid = s.
Proof.
  unfold getIdentityStorage, store. intros Hsid.
  destruct s as [m]; simpl in *. f_equal. by apply insert_id.
Qed.

Lemma store_store (s : Service) (id : ID) (a b : storage) :
  store (store s id a) id b = store s id b.
Proof. unfold store; simpl. f_equal. apply insert_insert_eq. Qed.

Lemma get_store (s : Service) (id : ID) (sid : storage) :
  getIdentityStorage (store s id sid) id = Some sid.
Proof. unfold getIdentityStorage, store; simpl. apply lookup_insert_eq. Qed.

Lemma get_store_other (s : Service) (id id' : ID) (sid : storage) :
  key id ≠ key id' →
  getIdentityStorage (store s id sid) id' = getIdentityStorage s id'.
Proof.
  unfold getIdentityStorage, store; simpl. intros Hne.
  by apply lookup_insert_ne.
Qed.

Section Replica.
Context `{Ext : Externals}.

(** An event about an identity the server holds, arriving while the mutex
    of the identity is free, runs the second type switch on its storage
    and files the result back. *)
Lemma Propagate_held (s : Service) (msg : Msg) (k : string) (sid : storage) :
  msg_ID msg = Some k →
  getIdentityStorage s (msg_ID msg) = Some sid →
  locked sid = false →
  Propagate s msg =
    (r ← apply_locked (with_lock true sid) msg;
     Returns (store s (msg_ID msg) (with_lock false r.1), r.2)).
Proof.
  intros Hid Hsid Hfree.
  destruct msg; try discriminate; unfold Propagate; cbn [msg_ID] in *;
    rewrite Hid in *; by rewrite Hsid, Hfree.
Qed.

(** A server that holds an identity holds it for good: no event removes
    an entry of the registry. *)
Lemma Propagate_keeps (s s' : Service) (msg : Msg) (errs : list string) (id : ID) :
  Propagate s msg = Returns (s', errs) →
  is_Some (getIdentityStorage s id) → is_Some (getIdentityStorage s' id).
Proof.
  intros Hrun [sid Hsid]. unfold Propagate in Hrun.
  assert (Hkeep : ∀ id0 sid0, is_Some (getIdentityStorage (store s id0 sid0) id)).
  { intros id0 sid0. unfold getIdentityStorage, store in *; simpl.
    rewrite lookup_insert. case_decide; [by eexists|]. by rewrite Hsid. }
  destruct msg as [p|v|u|[ids|]|]; simpl in Hrun.
  - destruct (ps_ID p) as [k|] eqn:Hk; [|by simplify_eq; eexists].
    destruct (getIdentityStorage s (Some k)) as [sid0|]; [|by simplify_eq; eexists].
    destruct (locked sid0); plumb; simplify_eq. apply Hkeep.
  - destruct (pv_ID v) as [k|] eqn:Hk; [|by simplify_eq; eexists].
    destruct (getIdentityStorage s (Some k)) as [sid0|]; [|by simplify_eq; eexists].
    destruct (locked sid0); [done|]. simpl in Hrun.
    destruct (Votes sid0); plumb; simplify_eq. apply Hkeep.
  - destruct (usb_ID u) as [k|] eqn:Hk; [|by simplify_eq; eexists].
    destruct (getIdentityStorage s (Some k)) as [sid0|]; [|by simplify_eq; eexists].
    destruct (locked sid0); [done|]. simpl in Hrun.
    destruct (usb_Latest u) as [b|]; [|done]. simpl in Hrun.
    destruct (UnmarshalRegistered (sb_Data b)) as [e|[c|]];
      plumb; simplify_eq; apply Hkeep.
  - destruct (Data ids) as [d|]; [|done].
    destruct (getIdentityStorage s (sb_Hash d)); [by simplify_eq; eexists|].
    unfold setIdentityStorage in Hrun.
    case_decide; [done|]. destruct (Latest ids); plumb; simplify_eq.
    apply (Hkeep (sb_Hash d) ids).
  - done.
  - simplify_eq. by eexists.
Qed.

(** So the pointer [sid] a request got from the registry of its server
    still designates an entry after a broadcast. *)
Lemma PropagateStartAndWait_keeps (n n' : Net) (msg : Msg)
    (r : string + nat) (id : ID) :
  PropagateStartAndWait n msg = Returns (n', r) →
  is_Some (getIdentityStorage (self n) id) →
  is_Some (getIdentityStorage (self n') id).
Proof.
  unfold PropagateStartAndWait. intros Hrun Hheld.
  destruct (PropagateStartError msg); [by simplify_eq|].
  destruct (Propagate (self n) msg) as [[s' errs]| |] eqn:Hself;
    simplify_eq; simpl; [|done].
  by apply (Propagate_keeps (self n) s' msg errs).
Qed.

End Replica.

(** ** The replica applies an event *)

Section ReplicaEvents.
Context `{Ext : Externals}.

(** C8.  [SetProposed]: on a server that holds the identity, the event
    [ProposeSend] puts its config in [Proposed] and a fresh, empty map
    in [Votes], whatever both held before: the one slot for a proposal
    is overwritten and no vote of an earlier round is left.  Nothing
    else moves, on this identity or on another, and nothing is
    logged. *)
Theorem SetProposed_overwrites_and_clears
    (s : Service) (p : ProposeSend_msg) (k : string) (sid : storage) :
  ps_ID p = Some k →
  getIdentityStorage s (ps_ID p) = Some sid →
  locked sid = false →
  ∃ s' sid',
    Propagate s (MsgProposeSend p) = Returns (s', []) ∧
    getIdentityStorage s' (ps_ID p) = Some sid' ∧
    Proposed sid' = ps_Config p ∧
    Votes sid' = Some ∅ ∧
    len_Votes sid' = 0%Z ∧
    (∀ signer, voted sid' signer = false) ∧
    Latest sid' = Latest sid ∧ Root sid' = Root sid ∧
    Data sid' = Data sid ∧ locked sid' = false ∧
    (∀ id', key id' ≠ k →
       getIdentityStorage s' id' = getIdentityStorage s id').
Proof.
  intros Hid Hsid Hfree.
  rewrite (Propagate_held s (MsgProposeSend p) k sid Hid Hsid Hfree).
  plumb. eexists _, _. split; [reflexivity|].
  split; [apply get_store|]. simpl.
  repeat split; try done.
  intros id' Hne. apply get_store_other. by rewrite Hid.
Qed.

(** C2, as the code has it.  [InstallCommitted]: on a server that holds
    the identity, the event [UpdateSkipBlock] whose block carries a
    config puts that config in [Latest], empties [Proposed] and makes
    the block the head of the data chain.  [Votes] is left as it was:
    the votes of the round stay on record until the next [ProposeSend]
    replaces the map. *)
Theorem InstallCommitted_keeps_votes
    (s : Service) (u : UpdateSkipBlock_msg) (k : string) (sid : storage)
    (skipblock : SkipBlock) (al : Config) :
  usb_ID u = Some k →
  getIdentityStorage s (usb_ID u) = Some sid →
  locked sid = false →
  usb_Latest u = Some skipblock →
  UnmarshalRegistered (sb_Data skipblock) = inr (BodyConfig al) →
  ∃ s' sid',
    Propagate s (MsgUpdateSkipBlock u) = Returns (s', []) ∧
    getIdentityStorage s' (usb_ID u) = Some sid' ∧
    Latest sid' = Some al ∧
    Proposed sid' = None ∧
    Data sid' = Some skipblock ∧
    Votes sid' = Votes sid ∧
    Root sid' = Root sid ∧ locked sid' = false ∧
    (∀ id', key id' ≠ k →
       getIdentityStorage s' id' = getIdentityStorage s id').
Proof.
  intros Hid Hsid Hfree Hblock Hdec.
  rewrite (Propagate_held s (MsgUpdateSkipBlock u) k sid Hid Hsid Hfree).
  simpl. rewrite Hblock, Hdec. plumb.
  eexists _, _. split; [reflexivity|].
  split; [apply get_store|]. simpl.
  repeat split; try done.
  intros id' Hne. apply get_store_other. by rewrite Hid.
Qed.

(** C9.  [InstallCommitted] is idempotent: a server that applies the
    same [UpdateSkipBlock] a second time, right after the first, ends
    in the state the first left, the second run logging what the first
    logged.  (Where the first run does not return, the mutex being held
    or the block pointer nil, there is no second one.) *)
Theorem InstallCommitted_idempotent (s : Service) (u : UpdateSkipBlock_msg) :
  (r ← Propagate s (MsgUpdateSkipBlock u);
   Propagate r.1 (MsgUpdateSkipBlock u))
  = Propagate s (MsgUpdateSkipBlock u).
Proof.
  unfold Propagate at 2 3. cbn [msg_ID].
  destruct (usb_ID u) as [k|] eqn:Hid.
  2:{ plumb. by rewrite Hid. }
  destruct (getIdentityStorage s (Some k)) as [sid|] eqn:Hsid.
  2:{ plumb. by rewrite Hid, Hsid. }
  destruct (locked sid) eqn:Hfree; [done|].
  simpl. destruct (usb_Latest u) as [skipblock|] eqn:Hblock; [|done].
  destruct (UnmarshalRegistered (sb_Data skipblock)) as [err|[al|]] eqn:Hdec.
  all: plumb; rewrite Hid, get_store; simpl; by rewrite store_store.
Qed.

(** C10.  [RecordVote] on a signer who is on record already: the event
    [ProposeVote] writes the signature it carries over the one held,
    without a line logged; the map keeps its size and its other
    entries.  When the signature is the one held, the server ends up as
    it was. *)
Theorem RecordVote_last_writer_wins
    (s : Service) (v : ProposeVote_msg) (k : string) (sid : storage)
    (votes : gmap string (option SchnorrSig)) (old : option SchnorrSig) :
  pv_ID v = Some k →
  getIdentityStorage s (pv_ID v) = Some sid →
  locked sid = false →
  Votes sid = Some votes →
  votes !! pv_Signer v = Some old →
  ∃ s' sid' votes',
    Propagate s (MsgProposeVote v) = Returns (s', []) ∧
    getIdentityStorage s' (pv_ID v) = Some sid' ∧
    Votes sid' = Some votes' ∧
    votes' !! pv_Signer v = Some (pv_Signature v) ∧
    (∀ signer, signer ≠ pv_Signer v → votes' !! signer = votes !! signer) ∧
    size votes' = size votes ∧
    len_Votes sid' = len_Votes sid ∧
    (old = pv_Signature v → s' = s).
Proof.
  intros Hid Hsid Hfree Hvotes Hold.
  rewrite (Propagate_held s (MsgProposeVote v) k sid Hid Hsid Hfree).
  simpl. rewrite Hvotes. plumb.
  eexists _, _, _. split; [reflexivity|].
  split; [apply get_store|]. simpl. split; [reflexivity|].
  assert (Hsize : size (<[pv_Signer v:=pv_Signature v]> votes) = size votes).
  { apply (inj Z.of_nat).
    rewrite <-(insert_delete_id votes (pv_Signer v) old) at 2 by done.
    rewrite <-(insert_delete_eq votes).
    by rewrite !map_size_insert_None by apply lookup_delete_eq. }
  split; [apply lookup_insert_eq|].
  split; [by intros signer Hne; apply lookup_insert_ne|].
  split; [done|].
  split; [unfold len_Votes; simpl; by rewrite Hvotes, Hsize|].
  intros ->. unfold record_vote. rewrite insert_id by done.
  apply store_same. rewrite Hsid. f_equal.
  destruct sid; simpl in *. by subst.
Qed.

End ReplicaEvents.

(** ** The coordinator handles a vote *)

Section Voting.
Context `{Ext : Externals}.

Lemma check_vote_passes (sid : storage) (v : ProposeVote_msg)
    (latest proposed : Config) (owner : Point) (hash : string) :
  Latest sid = Some latest →
  Proposed sid = Some proposed →
  Device latest !! pv_Signer v = Some owner →
  Config_Hash proposed = Some hash →
  voted sid (pv_Signer v) = false →
  signature_passes owner hash v →
  check_vote sid v = Returns None.
Proof.
  intros Hl Hp Hdev Hhash Hnew Hsig. unfold check_vote, signature_passes in *.
  rewrite Hp, Hl. plumb. rewrite Hdev, Hhash, Hnew.
  destruct (pv_Signature v); [by rewrite Hsig|done].
Qed.

(** A vote that passes the local checks goes out on the network as it
    was found: the mutex taken at line 151 is released at line 174. *)
Lemma ProposeVote_passes (n : Net) (v : ProposeVote_msg) (sid : storage)
    (latest proposed : Config) (owner : Point) (hash : string) :
  getIdentityStorage (self n) (pv_ID v) = Some sid →
  locked sid = false →
  Latest sid = Some latest →
  Proposed sid = Some proposed →
  Device latest !! pv_Signer v = Some owner →
  Config_Hash proposed = Some hash →
  voted sid (pv_Signer v) = false →
  signature_passes owner hash v →
  ProposeVote n v = vote_and_commit n sid v.
Proof.
  intros Hsid Hfree Hl Hp Hdev Hhash Hnew Hsig.
  unfold ProposeVote. rewrite Hsid, Hfree.
  rewrite (check_vote_passes (with_lock true sid) v latest proposed owner hash)
    by done.
  plumb_run. rewrite with_lock_idem, (with_lock_free sid Hfree).
  rewrite (store_same _ _ _ Hsid).
  destruct n as [me others]; simpl.
  by destruct (vote_and_commit _ sid v) as [t [?| |]].
Qed.

(** The broadcast of a vote, seen from the coordinator: its own handler
    writes the vote into the map it holds. *)
Lemma vote_broadcast (n : Net) (v : ProposeVote_msg) (k : string)
    (sid : storage) (votes : gmap string (option SchnorrSig)) :
  pv_ID v = Some k →
  getIdentityStorage (self n) (pv_ID v) = Some sid →
  locked sid = false →
  Votes sid = Some votes →
  PropagateStartError (MsgProposeVote v) = None →
  ∃ n' acks,
    PropagateStartAndWait n (MsgProposeVote v) = Returns (n', inr acks) ∧
    self n' = store (self n) (pv_ID v) (record_vote sid v votes) ∧
    getIdentityStorage (self n') (pv_ID v) = Some (record_vote sid v votes).
Proof.
  intros Hid Hsid Hfree Hvotes Hstart. unfold PropagateStartAndWait.
  rewrite Hstart.
  rewrite (Propagate_held (self n) (MsgProposeVote v) k sid Hid Hsid Hfree).
  simpl. rewrite Hvotes. plumb. eexists _, _. split; [reflexivity|]. simpl.
  assert (with_lock false (record_vote (with_lock true sid) v votes)
          = record_vote sid v votes) as ->.
  { unfold record_vote, with_lock; simpl. by rewrite Hfree. }
  split; [done|apply get_store].
Qed.

(** The commit step opens with the request to the chain engine, and
    goes on to broadcast the block the engine hands back. *)
Lemma commit_appends (n : Net) (id : ID) (sid : storage) (proposed : Config) :
  Proposed sid = Some proposed →
  ∃ rest,
    trace (commit n id sid)
    = Append (Root sid) (Data sid) (Proposed sid) :: rest ∧
    ∀ latest al root,
      ProposeData (Root sid) (Data sid) (Proposed sid) = inr latest →
      UnmarshalRegistered (sb_Data latest) = inr (BodyConfig al) →
      Root sid = Some root →
      rest = [Broadcast (MsgUpdateSkipBlock
                           {| usb_ID := id; usb_Latest := Some latest |})].
Proof.
  intros Hp. unfold commit. rewrite Hp. plumb_run.
  destruct (ProposeData _ _ _) as [err|latest] eqn:Happ; simpl.
  { eexists. split; [reflexivity|]. intros; congruence. }
  destruct (UnmarshalRegistered (sb_Data latest)) as [err|[al|]] eqn:Hdec; simpl.
  1,3: eexists; split; [reflexivity|]; intros; congruence.
  destruct (Root sid) as [r|] eqn:Hroot; simpl.
  2:{ eexists. split; [reflexivity|]. intros; congruence. }
  destruct (PropagateStartAndWait n _) as [[n' [err|acks]]| |]; simpl.
  2:{ destruct (getIdentityStorage (self n') id); simpl;
      (eexists; split; [reflexivity|]; intros; congruence). }
  all: eexists; split; [reflexivity|]; intros; congruence.
Qed.

(** The vote is broadcast, the coordinator counts the votes it holds
    now, and either commits or answers that more votes are needed. *)
Lemma vote_and_commit_run (n : Net) (v : ProposeVote_msg) (k : string)
    (sid : storage) (latest : Config) (root : SkipBlock)
    (votes : gmap string (option SchnorrSig)) :
  pv_ID v = Some k →
  getIdentityStorage (self n) (pv_ID v) = Some sid →
  locked sid = false →
  Latest sid = Some latest →
  Votes sid = Some votes →
  Root sid = Some root →
  PropagateStartError (MsgProposeVote v) = None →
  ∃ n' acks,
    PropagateStartAndWait n (MsgProposeVote v) = Returns (n', inr acks) ∧
    getIdentityStorage (self n') (pv_ID v) = Some (record_vote sid v votes) ∧
    vote_and_commit n sid v =
      if bool_decide (Threshold latest ≤ len_Votes (record_vote sid v votes))%Z
         || bool_decide (len_Votes (record_vote sid v votes)
                         = Z.of_nat (size (Device latest)))
      then Run (Broadcast (MsgProposeVote v)
                  :: trace (commit n' (pv_ID v) (record_vote sid v votes)))
               (result (commit n' (pv_ID v) (record_vote sid v votes)))
      else Run [Broadcast (MsgProposeVote v)] (Returns (n', inr None)).
Proof.
  intros Hid Hsid Hfree Hl Hvotes Hroot Hstart.
  destruct (vote_broadcast n v k sid votes) as (n' & acks & Hcast & _ & Hsid');
    try done.
  exists n', acks. split; [done|]. split; [done|].
  unfold vote_and_commit. rewrite Hroot, Hcast. plumb_run.
  rewrite Hsid'. simpl. unfold quorum. simpl. rewrite Hl. plumb.
  destruct (_ || _); [|done].
  by destruct (commit n' _ _) as [t [?| |]].
Qed.

(** C1.  A vote that passes the local checks is broadcast; the
    coordinator then holds the storage [sid'] and the commit step, the
    request to append a block followed by the broadcast of that block,
    fires if and only if the votes in [sid'] number at least
    [Latest.Threshold] or as many as [Latest.Device].  Short of that the
    request answers with the empty reply after the one broadcast.  When
    the threshold exceeds the number of devices and the votes on record
    are votes of devices, the step fires exactly when every device has
    voted. *)
Theorem ProposeVote_commits_iff_quorum
    (n : Net) (v : ProposeVote_msg) (k : string) (sid : storage)
    (latest proposed : Config) (root : SkipBlock)
    (votes : gmap string (option SchnorrSig))
    (owner : Point) (hash : string) :
  pv_ID v = Some k →
  getIdentityStorage (self n) (pv_ID v) = Some sid →
  locked sid = false →
  Latest sid = Some latest →
  Proposed sid = Some proposed →
  Votes sid = Some votes →
  Root sid = Some root →
  Device latest !! pv_Signer v = Some owner →
  Config_Hash proposed = Some hash →
  votes !! pv_Signer v = None →
  signature_passes owner hash v →
  PropagateStartError (MsgProposeVote v) = None →
  ∃ n' acks sid',
    PropagateStartAndWait n (MsgProposeVote v) = Returns (n', inr acks) ∧
    getIdentityStorage (self n') (pv_ID v) = Some sid' ∧
    Latest sid' = Some latest ∧
    (commit_fired (trace (ProposeVote n v)) = true ↔
       (Threshold latest ≤ len_Votes sid')%Z ∨
       len_Votes sid' = Z.of_nat (size (Device latest))) ∧
    (commit_fired (trace (ProposeVote n v)) = true →
       ∃ rest,
         trace (ProposeVote n v)
         = Broadcast (MsgProposeVote v)
             :: Append (Root sid') (Data sid') (Proposed sid') :: rest ∧
         ∀ block al,
           ProposeData (Root sid') (Data sid') (Proposed sid') = inr block →
           UnmarshalRegistered (sb_Data block) = inr (BodyConfig al) →
           rest = [Broadcast (MsgUpdateSkipBlock
                     {| usb_ID := pv_ID v; usb_Latest := Some block |})]) ∧
    (commit_fired (trace (ProposeVote n v)) = false →
       ProposeVote n v
       = Run [Broadcast (MsgProposeVote v)] (Returns (n', inr None))) ∧
    ((Z.of_nat (size (Device latest)) < Threshold latest)%Z →
     dom votes ⊆ dom (Device latest) →
       (commit_fired (trace (ProposeVote n v)) = true ↔
          ∀ device, device ∈ dom (Device latest) → voted sid' device = true)).
Proof.
  intros Hid Hsid Hfree Hl Hp Hvotes Hroot Hdev Hhash Hnew Hsig Hstart.
  assert (Hnot : voted sid (pv_Signer v) = false).
  { unfold voted. rewrite Hvotes. apply bool_decide_eq_false.
    rewrite Hnew. by intros [? ?]. }
  rewrite (ProposeVote_passes n v sid latest proposed owner hash) by done.
  destruct (vote_and_commit_run n v k sid latest root votes)
    as (n' & acks & Hcast & Hsid' & ->); try done.
  set (sid' := record_vote sid v votes) in *.
  exists n', acks, sid'. split; [done|]. split; [done|]. split; [done|].
  destruct (commit_appends n' (pv_ID v) sid' proposed Hp)
    as (rest & Htrace & Hrest).
  set (step := commit n' (pv_ID v) sid') in *. clearbody step.
  set (enough := bool_decide (Threshold latest ≤ len_Votes sid')%Z
                 || bool_decide (len_Votes sid' = Z.of_nat (size (Device latest)))).
  assert (Henough : enough = true ↔
    (Threshold latest ≤ len_Votes sid')%Z ∨
    len_Votes sid' = Z.of_nat (size (Device latest))).
  { unfold enough. by rewrite orb_true_iff, !bool_decide_eq_true. }
  assert (Hfired :
    commit_fired
      (trace (if enough
              then Run (Broadcast (MsgProposeVote v) :: trace step) (result step)
              else Run [Broadcast (MsgProposeVote v)] (Returns (n', inr None))))
    = enough).
  { destruct enough; cbn [trace]; [rewrite Htrace|]; reflexivity. }
  rewrite Hfired, Henough. split; [done|]. split; [|split].
  - rewrite <-Henough. intros ->. cbn [trace]. rewrite Htrace.
    exists rest. split; [done|]. intros block al Happ Hdec.
    by apply (Hrest block al root).
  - by intros ->.
  - intros Hhigh Hdevices. clear Hfired Henough Htrace Hrest.
    set (votes' := <[pv_Signer v:=pv_Signature v]> votes).
    assert (Hlen : len_Votes sid' = Z.of_nat (size votes')) by done.
    assert (Hsub : dom votes' ⊆ dom (Device latest)).
    { unfold votes'. rewrite dom_insert. apply union_least; [|done].
      apply singleton_subseteq_l, elem_of_dom. by eexists. }
    assert (Hvoted : ∀ device, voted sid' device = true ↔ device ∈ dom votes').
    { intros device. unfold voted; simpl.
      by rewrite bool_decide_eq_true, elem_of_dom. }
    pose proof (subseteq_size _ _ Hsub) as Hle. rewrite !size_dom in Hle.
    rewrite Hlen. split.
    + intros [Hth|Hall]; [lia|].
      intros device Hin. apply Hvoted.
      assert (dom votes' ≡ dom (Device latest)) as Heq; [|by apply Heq].
      apply set_subseteq_size_equiv; [done|]. rewrite !size_dom. lia.
    + intros Hall. right.
      assert (dom (Device latest) ⊆ dom votes') as Hsup.
      { intros device Hin. by apply Hvoted, Hall. }
      pose proof (subseteq_size _ _ Hsup) as Hge. rewrite !size_dom in Hge.
      lia.
Qed.

(** Whether the commit step fires is settled by the number of votes
    held once the vote is in. *)
Lemma ProposeVote_fired
    (n : Net) (v : ProposeVote_msg) (k : string) (sid : storage)
    (latest proposed : Config) (root : SkipBlock)
    (votes : gmap string (option SchnorrSig))
    (owner : Point) (hash : string) :
  pv_ID v = Some k →
  getIdentityStorage (self n) (pv_ID v) = Some sid →
  locked sid = false →
  Latest sid = Some latest →
  Proposed sid = Some proposed →
  Votes sid = Some votes →
  Root sid = Some root →
  Device latest !! pv_Signer v = Some owner →
  Config_Hash proposed = Some hash →
  votes !! pv_Signer v = None →
  signature_passes owner hash v →
  PropagateStartError (MsgProposeVote v) = None →
  commit_fired (trace (ProposeVote n v))
  = bool_decide (Threshold latest ≤ Z.of_nat (S (size votes)))%Z
    || bool_decide (S (size votes) = size (Device latest)).
Proof.
  intros Hid Hsid Hfree Hl Hp Hvotes Hroot Hdev Hhash Hnew Hsig Hstart.
  assert (Hnot : voted sid (pv_Signer v) = false).
  { unfold voted. rewrite Hvotes. apply bool_decide_eq_false.
    rewrite Hnew. by intros [? ?]. }
  rewrite (ProposeVote_passes n v sid latest proposed owner hash) by done.
  destruct (vote_and_commit_run n v k sid latest root votes)
    as (n' & acks & _ & _ & ->); try done.
  assert (Hlen : len_Votes (record_vote sid v votes) = Z.of_nat (S (size votes))).
  { unfold len_Votes; simpl. by rewrite map_size_insert_None. }
  rewrite Hlen.
  destruct (commit_appends n' (pv_ID v) (record_vote sid v votes) proposed Hp)
    as (rest & Htrace & _).
  set (step := commit n' (pv_ID v) (record_vote sid v votes)) in *.
  clearbody step.
  assert (bool_decide (Z.of_nat (S (size votes)) = Z.of_nat (size (Device latest)))
          = bool_decide (S (size votes) = size (Device latest))) as ->.
  { apply bool_decide_ext. lia. }
  destruct (_ || _); cbn [trace]; [rewrite Htrace|]; reflexivity.
Qed.


(** A vote cast while no config is proposed does not get as far as the
    checks: the log line of line 152 reads [sid.Proposed.Device]. *)
Lemma check_vote_nil_Proposed (sid : storage) (v : ProposeVote_msg) :
  Proposed sid = None → check_vote sid v = Panics.
Proof. intros Hp. unfold check_vote. by rewrite Hp. Qed.

(** With a config proposed, the vote of a name that [Latest.Device] does
    not list is answered [SignerUnknown] before anything is sent, and
    no map of votes is touched. *)
Lemma ProposeVote_rejects_stranger
    (n : Net) (v : ProposeVote_msg) (sid : storage)
    (latest proposed : Config) :
  getIdentityStorage (self n) (pv_ID v) = Some sid →
  locked sid = false →
  Latest sid = Some latest →
  Proposed sid = Some proposed →
  Device latest !! pv_Signer v = None →
  ProposeVote n v
  = Run [] (Returns (with_self n (store (self n) (pv_ID v) (with_lock true sid)),
                     inl SignerUnknown)).
Proof.
  intros Hsid Hfree Hl Hp Hdev.
  unfold ProposeVote. rewrite Hsid, Hfree.
  unfold check_vote. simpl. rewrite Hp, Hl. plumb. by rewrite Hdev.
Qed.

(** C3, as the code has it.  On a storage whose [Proposed] is nil the
    request panics at line 152, with the mutex held and before the
    check of line 157 that would answer [NoProposal]. *)
Theorem ProposeVote_without_proposal_panics
    (n : Net) (v : ProposeVote_msg) (sid : storage) :
  getIdentityStorage (self n) (pv_ID v) = Some sid →
  locked sid = false →
  Proposed sid = None →
  ProposeVote n v = Run [] Panics.
Proof.
  intros Hsid Hfree Hp. unfold ProposeVote. rewrite Hsid, Hfree.
  by rewrite check_vote_nil_Proposed.
Qed.

(** C6, as the code has it.  The vote of a name that [Latest.Device]
    does not list, cast while no config is proposed, is not answered
    [SignerUnknown]: the request panics at line 152, before the signer
    is looked up. *)
Theorem ProposeVote_stranger_without_proposal_panics
    (n : Net) (v : ProposeVote_msg) (sid : storage) (latest : Config) :
  getIdentityStorage (self n) (pv_ID v) = Some sid →
  locked sid = false →
  Latest sid = Some latest →
  Device latest !! pv_Signer v = None →
  Proposed sid = None →
  result (ProposeVote n v) = Panics ∧
  (∀ n', result (ProposeVote n v) ≠ Returns (n', inl SignerUnknown)) ∧
  trace (ProposeVote n v) = [].
Proof.
  intros Hsid Hfree Hl Hdev Hp. unfold ProposeVote. rewrite Hsid, Hfree.
  by rewrite check_vote_nil_Proposed.
Qed.


End Voting.

(** ** A new identity *)

Section Genesis.
Context `{Ext : Externals}.

#[local] Arguments Propagate : simpl never.

(** [InstallIdentity] on a server that holds the identity: the event is
    dropped with a line in the log, and the registry is as before. *)
Lemma InstallIdentity_ignored (s : Service) (ids : storage) (data : SkipBlock) :
  Data ids = Some data →
  is_Some (getIdentityStorage s (sb_Hash data)) →
  Propagate s (MsgPropagateIdentity (Some ids))
  = Returns (s, ["Couldn't store new identity"]).
Proof. intros Hdata [sid Hsid]. unfold Propagate. by rewrite Hdata, Hsid. Qed.

(** [InstallIdentity] on a server that does not hold the identity. *)
Lemma InstallIdentity_new (s : Service) (ids : storage) (data : SkipBlock)
    (latest : Config) :
  Data ids = Some data →
  getIdentityStorage s (sb_Hash data) = None →
  (8 ≤ len_ID (sb_Hash data))%nat →
  Latest ids = Some latest →
  Propagate s (MsgPropagateIdentity (Some ids))
  = Returns (store s (sb_Hash data) ids, []).
Proof.
  intros Hdata Hnone Hlen Hl. unfold Propagate. rewrite Hdata, Hnone.
  unfold setIdentityStorage. rewrite decide_False by lia. by rewrite Hl.
Qed.

(** C5, as the code has it.  When the chain engine hands back a genesis
    data block whose hash names an identity that servers of the roster
    hold already, [AddIdentity] does not fail: it answers with the root
    and the data block, as for a new identity.  Each server that held
    the identity drops the event, logs the anomaly and keeps its
    registry, so the storage it had is not overwritten. *)
Theorem AddIdentity_ignores_duplicate
    (n : Net) (ai : AddIdentity_msg) (root0 root data : SkipBlock) :
  let ids := {| locked := false; Latest := ai_Config ai; Proposed := None;
                Votes := None; Root := Some root; Data := Some data |} in
  let msg := MsgPropagateIdentity (Some ids) in
  CreateRoster = inr root0 →
  CreateData root0 (ai_Config ai) = inr (root, data) →
  PropagateStartError msg = None →
  is_Some (getIdentityStorage (self n) (sb_Hash data))
  ∨ ((8 ≤ len_ID (sb_Hash data))%nat ∧ is_Some (ai_Config ai)) →
  ∃ n' warnings,
    AddIdentity n ai
    = Run [NewRoster; NewData root0 (ai_Config ai); Broadcast msg]
          (Returns (n', warnings, inr (root, data))) ∧
    (is_Some (getIdentityStorage (self n) (sb_Hash data)) → self n' = self n) ∧
    length (peers n') = length (peers n) ∧
    (∀ i r, peers n !! i = Some r →
            is_Some (getIdentityStorage r (sb_Hash data)) →
            peers n' !! i = Some r) ∧
    (∀ r, is_Some (getIdentityStorage r (sb_Hash data)) →
          Propagate r msg = Returns (r, ["Couldn't store new identity"])).
Proof.
  intros ids msg Hroster Hdata Hstart Hself.
  assert (Hdrop : ∀ r, is_Some (getIdentityStorage r (sb_Hash data)) →
            Propagate r msg = Returns (r, ["Couldn't store new identity"])).
  { intros r Hr. by apply (InstallIdentity_ignored r ids data). }
  assert (∃ s', Propagate (self n) msg = Returns s' ∧
            (is_Some (getIdentityStorage (self n) (sb_Hash data)) →
             s'.1 = self n)) as (s' & Hrun & Hkept).
  { destruct (getIdentityStorage (self n) (sb_Hash data)) as [sid|] eqn:Hsid.
    - eexists. split; [apply Hdrop; by eexists|]. done.
    - destruct Hself as [[? ?]|[Hlen [latest Hl]]]; [done|].
      eexists. split; [|by intros [? ?]].
      by apply (InstallIdentity_new _ ids data latest). }
  unfold AddIdentity. rewrite Hroster. plumb_run. rewrite Hdata. simpl.
  unfold PropagateStartAndWait. fold ids. fold msg. rewrite Hstart, Hrun. simpl.
  eexists _, _. split; [reflexivity|]. simpl.
  split; [done|]. split; [by rewrite !length_fmap|].
  split; [|done].
  intros i r Hi Hr. rewrite !list_lookup_fmap, Hi. simpl.
  unfold deliver. by rewrite (Hdrop r Hr).
Qed.

End Genesis.

(** ** The deployment at work *)

Section Deployment.
Import Scenario.
#[local] Existing Instance Scenario.ext.

(** C2 fails as stated: the committed block is applied to a server in
    the middle of the round, and the vote of A outlives the commit. *)
Lemma InstallCommitted_votes_survive :
  Propagate (server voting) (MsgUpdateSkipBlock committed)
  = Returns (server after_commit, []) ∧
  getIdentityStorage (server after_commit) id0 = Some after_commit ∧
  Votes after_commit ≠ Some ∅ ∧
  len_Votes after_commit = 1%Z.
Proof.
  split; [by vm_compute|]. split; [by vm_compute|]. split; [|by vm_compute].
  intros Heq. apply (f_equal (from_option size 0%nat)) in Heq.
  vm_compute in Heq. discriminate.
Qed.

Lemma InstallCommitted_keeps_votes_witness :
  ∃ s' sid',
    Propagate (server voting) (MsgUpdateSkipBlock committed) = Returns (s', []) ∧
    getIdentityStorage s' id0 = Some sid' ∧
    Latest sid' = Some C1 ∧ Proposed sid' = None ∧ Data sid' = Some data1 ∧
    Votes sid' = Votes voting.
Proof.
  destruct (InstallCommitted_keeps_votes (server voting) committed
              "identity0" voting data1 C1)
    as (s' & sid' & Hrun & Hsid & Hl & Hp & Hd & Hv & _);
    [reflexivity..|].
  by exists s', sid'.
Defined.

Lemma SetProposed_overwrites_and_clears_witness :
  ∃ s' sid',
    Propagate (server voting)
      (MsgProposeSend {| ps_ID := id0; ps_Config := Some C0 |})
    = Returns (s', []) ∧
    getIdentityStorage s' id0 = Some sid' ∧
    Proposed sid' = Some C0 ∧ Votes sid' = Some ∅.
Proof.
  destruct (SetProposed_overwrites_and_clears (server voting)
              {| ps_ID := id0; ps_Config := Some C0 |} "identity0" voting)
    as (s' & sid' & Hrun & Hsid & Hp & Hv & _); [reflexivity..|].
  by exists s', sid'.
Defined.

(** The commit of the deployment, applied twice, returns both times. *)
Example InstallCommitted_twice :
  (r ← Propagate (server voting) (MsgUpdateSkipBlock committed);
   Propagate r.1 (MsgUpdateSkipBlock committed))
  = Returns (server after_commit, []).
Proof. by vm_compute. Qed.

Lemma RecordVote_last_writer_wins_witness :
  ∃ s' sid' votes',
    Propagate (server voting) (MsgProposeVote (vote "A" None)) = Returns (s', []) ∧
    getIdentityStorage s' id0 = Some sid' ∧
    Votes sid' = Some votes' ∧
    votes' !! "A" = Some None ∧
    size votes' = 1%nat.
Proof.
  destruct (RecordVote_last_writer_wins (server voting) (vote "A" None)
              "identity0" voting {[ "A" := Some "pkAdigest" ]}
              (Some "pkAdigest"))
    as (s' & sid' & votes' & Hrun & Hsid & Hv & Hnew & _ & Hsize & _);
    [reflexivity..|].
  by exists s', sid', votes'.
Defined.

Lemma ProposeVote_commits_iff_quorum_witness :
  ∃ n' acks sid',
    PropagateStartAndWait (net_of voting) (MsgProposeVote (vote "B" None))
    = Returns (n', inr acks) ∧
    getIdentityStorage (self n') id0 = Some sid' ∧
    (commit_fired (trace (ProposeVote (net_of voting) (vote "B" None))) = true ↔
       (Threshold C0 ≤ len_Votes sid')%Z ∨
       len_Votes sid' = Z.of_nat (size (Device C0))).
Proof.
  destruct (ProposeVote_commits_iff_quorum (net_of voting) (vote "B" None)
              "identity0" voting C0 C1 root0 {[ "A" := Some "pkAdigest" ]}
              "pkB" "digest")
    as (n' & acks & sid' & Hcast & Hsid & _ & Hiff & _);
    [reflexivity..|exact I|reflexivity|].
  by exists n', acks, sid'.
Defined.



(** The mutex left held by that error return is never released: the
    next request on the identity at this server waits for ever. *)
Example ProposeVote_after_rejection_hangs :
  ProposeVote (with_self (net_of voting) (server (with_lock true voting)))
    (vote "B" None)
  = Run [] Blocks.
Proof. by vm_compute. Qed.

(** The failing input of C3: the identity is fresh from [AddIdentity],
    nothing is proposed, and device A votes. *)
Lemma ProposeVote_without_proposal_panics_witness :
  ProposeVote (net_of fresh) (vote "A" None) = Run [] Panics.
Proof.
  apply (ProposeVote_without_proposal_panics (net_of fresh) (vote "A" None)
           fresh); reflexivity.
Defined.

(** The failing input of C6: the same identity, and a name that is not
    a device votes. *)
Lemma ProposeVote_stranger_without_proposal_panics_witness :
  result (ProposeVote (net_of fresh) (vote "X" None)) = Panics ∧
  (∀ n', result (ProposeVote (net_of fresh) (vote "X" None))
         ≠ Returns (n', inl SignerUnknown)) ∧
  trace (ProposeVote (net_of fresh) (vote "X" None)) = [].
Proof.
  apply (ProposeVote_stranger_without_proposal_panics (net_of fresh)
           (vote "X" None) fresh C0); reflexivity.
Defined.

(** With [C1] proposed, the same name is turned away as the
    specification has it. *)
Example ProposeVote_stranger_in_round :
  ProposeVote (net_of voting) (vote "X" None)
  = Run [] (Returns (with_self (net_of voting)
                       (server (with_lock true voting)),
                     inl SignerUnknown)).
Proof. by vm_compute. Qed.

(** C5 fails as stated: every server of the roster holds the identity
    [identity0], the chain engine hands back a genesis block of that
    hash, and [AddIdentity] answers with the two blocks, not with an
    error; the servers keep what they held. *)
Lemma AddIdentity_duplicate_succeeds :
  AddIdentity (net_of voting) {| ai_Config := Some C1 |}
  = Run [NewRoster; NewData root0 (Some C1);
         Broadcast (MsgPropagateIdentity (Some
           {| locked := false; Latest := Some C1; Proposed := None;
              Votes := None; Root := Some root0; Data := Some data0 |}))]
        (Returns (net_of voting, [], inr (root0, data0))) ∧
  getIdentityStorage (self (net_of voting)) (sb_Hash data0) = Some voting ∧
  ∀ n' warnings err,
    result (AddIdentity (net_of voting) {| ai_Config := Some C1 |})
    ≠ Returns (n', warnings, inl err).
Proof.
  assert (Hrun : result (AddIdentity (net_of voting) {| ai_Config := Some C1 |})
                 = Returns (net_of voting, [], inr (root0, data0)))
    by by vm_compute.
  split; [by vm_compute|]. split; [by vm_compute|].
  intros n' warnings err. rewrite Hrun. discriminate.
Qed.

Lemma AddIdentity_ignores_duplicate_witness :
  ∃ n' warnings calls,
    AddIdentity (net_of voting) {| ai_Config := Some C1 |}
    = Run calls (Returns (n', warnings, inr (root0, data0))) ∧
    self n' = self (net_of voting).
Proof.
  destruct (AddIdentity_ignores_duplicate (net_of voting)
              {| ai_Config := Some C1 |} root0 root0 data0)
    as (n' & warnings & Hrun & Hself & _);
    [reflexivity..|left; by eexists|].
  exists n', warnings. eexists. split; [exact Hrun|].
  apply Hself. by eexists.
Defined.

(** The round of the deployment from start to end: the identity is
    added, [C1] is proposed, A and B approve, and the coordinator ends
    with [C1] installed, no proposal, and the two votes still held. *)
Example round_trip :
  ∃ n1 n2 n3 n4 w t1 t2 t3 t4 sid,
    AddIdentity net0 {| ai_Config := Some C0 |}
    = Run t1 (Returns (n1, w, inr (root0, data0))) ∧
    ProposeSend n1 {| ps_ID := id0; ps_Config := Some C1 |}
    = Run t2 (Returns (n2, [], inr ())) ∧
    ProposeVote n2 (vote "A" (Some "pkAdigest"))
    = Run t3 (Returns (n3, inr None)) ∧
    ProposeVote n3 (vote "B" (Some "pkBdigest"))
    = Run t4 (Returns (n4, inr (Some data1))) ∧
    commit_fired t3 = false ∧ commit_fired t4 = true ∧
    getIdentityStorage (self n4) id0 = Some sid ∧
    Latest sid = Some C1 ∧ Proposed sid = None ∧ len_Votes sid = 2%Z ∧
    peers n4 = [self n4; self n4].
Proof.
  eexists _, _, _, _, _, _, _, _, _, _.
  split; [by vm_compute|]. split; [by vm_compute|].
  split; [by vm_compute|]. split; [by vm_compute|].
  by vm_compute.
Qed.

End Deployment.

(** * Further properties of the service *)

(** ** What an event may do to a server *)

Section ReplicaInvariants.
Context `{Ext : Externals}.

#[local] Arguments Propagate : simpl never.

(** The three ways [Propagate] returns: nothing is written; the storage
    of a held identity is rewritten under its mutex; a new identity is
    filed. *)
Lemma Propagate_cases (s s' : Service) (msg : Msg) (errs : list string) :
  Propagate s msg = Returns (s', errs) →
  s' = s
  ∨ (∃ k sid sid',
       msg_ID msg = Some k ∧ event_key msg = Some k ∧
       getIdentityStorage s (Some k) = Some sid ∧ locked sid = false ∧
       apply_locked (with_lock true sid) msg = Returns (sid', errs) ∧
       s' = store s (Some k) (with_lock false sid'))
  ∨ (∃ ids data,
       msg = MsgPropagateIdentity (Some ids) ∧ Data ids = Some data ∧
       getIdentityStorage s (sb_Hash data) = None ∧
       (8 ≤ len_ID (sb_Hash data))%nat ∧ is_Some (Latest ids) ∧
       errs = [] ∧ s' = store s (sb_Hash data) ids).
Proof.
  intros Hrun.
  assert (Hround : ∀ id, msg_ID msg = id →
            match id with
            | None => Returns (s, [])
            | Some _ =>
                match getIdentityStorage s id with
                | None => Returns (s, ["Didn't find entity in"])
                | Some sid =>
                    if locked sid then Blocks
                    else r ← apply_locked (with_lock true sid) msg;
                         Returns (store s id (with_lock false r.1), r.2)
                end
            end = Returns (s', errs) →
            event_key msg = msg_ID msg →
            s' = s ∨ (∃ k sid sid',
              msg_ID msg = Some k ∧ event_key msg = Some k ∧
              getIdentityStorage s (Some k) = Some sid ∧ locked sid = false ∧
              apply_locked (with_lock true sid) msg = Returns (sid', errs) ∧
              s' = store s (Some k) (with_lock false sid'))).
  { intros [k|] Hid Hret Hkey; [|left; by simplify_eq].
    destruct (getIdentityStorage s (Some k)) as [sid|] eqn:Hsid;
      [|left; by simplify_eq].
    destruct (locked sid) eqn:Hfree; [done|].
    destruct (apply_locked (with_lock true sid) msg) as [[sid' errs']| |] eqn:Happ;
      plumb; [|done..].
    simplify_eq. right. exists k, sid, sid'.
    by rewrite Hkey, Hid. }
  destruct msg as [p|v|u|[ids|]|]; unfold Propagate in Hrun.
  - destruct (Hround (ps_ID p)) as [?|?]; auto.
  - destruct (Hround (pv_ID v)) as [?|?]; auto.
  - destruct (Hround (usb_ID u)) as [?|?]; auto.
  - clear Hround. destruct (Data ids) as [data|] eqn:Hdata; [|done].
    destruct (getIdentityStorage s (sb_Hash data)) eqn:Hheld;
      [left; by simplify_eq|].
    unfold setIdentityStorage in Hrun. case_decide; [done|].
    destruct (Latest ids) as [latest|] eqn:Hl; plumb; [|done]. simplify_eq.
    right; right. exists ids, data.
    repeat split; try done; try lia.
  - done.
  - left. simpl in Hrun. by simplify_eq.
Qed.

(** X1.  An event leaves every identity but its own as it was. *)
Theorem Propagate_other_identities
    (s s' : Service) (msg : Msg) (errs : list string) (id : ID) :
  Propagate s msg = Returns (s', errs) →
  event_key msg ≠ Some (key id) →
  getIdentityStorage s' id = getIdentityStorage s id.
Proof.
  intros Hrun Hother.
  destruct (Propagate_cases s s' msg errs Hrun)
    as [->|[(k & sid & sid' & _ & Hkey & _ & _ & _ & ->)
           |(ids & data & -> & Hdata & _ & _ & _ & _ & ->)]]; [done| |].
  - apply get_store_other. simpl. congruence.
  - apply get_store_other. simpl in Hother. rewrite Hdata in Hother.
    simpl in Hother. congruence.
Qed.

(** X2.  No event takes an identity away from a server, and only
    [PropagateIdentity] gives it one: the names under which the registry
    holds storages are the same after any other event. *)
Theorem Propagate_registry_grows
    (s s' : Service) (msg : Msg) (errs : list string) :
  Propagate s msg = Returns (s', errs) →
  dom (identities s) ⊆ dom (identities s') ∧
  ((∀ pi, msg ≠ MsgPropagateIdentity pi) →
   dom (identities s') = dom (identities s)).
Proof.
  intros Hrun.
  destruct (Propagate_cases s s' msg errs Hrun)
    as [->|[(k & sid & sid' & _ & _ & Hsid & _ & _ & ->)
           |(ids & data & -> & _ & _ & _ & _ & _ & ->)]]; [done| |].
  - unfold store; simpl. rewrite dom_insert_L.
    assert (k ∈ dom (identities s)) by (apply elem_of_dom; by eexists).
    split; [apply union_subseteq_r|]. intros _.
    apply subseteq_union_1_L. by apply singleton_subseteq_l.
  - unfold store; simpl. rewrite dom_insert_L.
    split; [apply union_subseteq_r|]. intros Hne. by destruct (Hne (Some ids)).
Qed.

(** X3.  When [Propagate] returns, it has released what it locked: the
    mutex of every storage the server held is in the state it was
    in. *)
Theorem Propagate_releases_mutex
    (s s' : Service) (msg : Msg) (errs : list string) (id : ID)
    (sid sid' : storage) :
  Propagate s msg = Returns (s', errs) →
  getIdentityStorage s id = Some sid →
  getIdentityStorage s' id = Some sid' →
  locked sid' = locked sid.
Proof.
  intros Hrun Hsid Hsid'.
  destruct (Propagate_cases s s' msg errs Hrun)
    as [->|[(k & sid0 & sid1 & _ & _ & Hsid0 & Hfree & _ & ->)
           |(ids & data & -> & _ & Hnone & _ & _ & _ & ->)]].
  - congruence.
  - destruct (decide (key (Some k) = key id)) as [Heq|Hne].
    + unfold getIdentityStorage in *. rewrite <-Heq in *.
      unfold store in Hsid'; simpl in Hsid'.
      rewrite lookup_insert_eq in Hsid'. simplify_eq. simpl. congruence.
    + rewrite get_store_other in Hsid' by done. congruence.
  - destruct (decide (key (sb_Hash data) = key id)) as [Heq|Hne].
    + unfold getIdentityStorage in *. rewrite <-Heq in *. congruence.
    + rewrite get_store_other in Hsid' by done. congruence.
Qed.

(** X4.  The event [ProposeVote] writes to the map of votes of its
    identity and to nothing else: on every identity of the server the
    configs and the chain heads are as before, a nil map of votes is
    still nil, and a map of votes has kept its signers and, but for the
    signer of the event, their signatures. *)
Theorem RecordVote_touches_votes_only
    (s s' : Service) (v : ProposeVote_msg) (errs : list string) (id : ID)
    (sid : storage) :
  Propagate s (MsgProposeVote v) = Returns (s', errs) →
  getIdentityStorage s id = Some sid →
  ∃ sid',
    getIdentityStorage s' id = Some sid' ∧
    Latest sid' = Latest sid ∧ Proposed sid' = Proposed sid ∧
    Root sid' = Root sid ∧ Data sid' = Data sid ∧
    match Votes sid with
    | None => Votes sid' = None
    | Some votes =>
        ∃ votes', Votes sid' = Some votes' ∧ dom votes ⊆ dom votes' ∧
          ∀ signer, signer ≠ pv_Signer v → votes' !! signer = votes !! signer
    end.
Proof.
  intros Hrun Hsid.
  assert (Hsame : ∃ sid', Some sid = Some sid' ∧
            Latest sid' = Latest sid ∧ Proposed sid' = Proposed sid ∧
            Root sid' = Root sid ∧ Data sid' = Data sid ∧
            match Votes sid with
            | None => Votes sid' = None
            | Some votes =>
                ∃ votes', Votes sid' = Some votes' ∧ dom votes ⊆ dom votes' ∧
                  ∀ signer, signer ≠ pv_Signer v →
                            votes' !! signer = votes !! signer
            end).
  { exists sid. repeat split; try done. destruct (Votes sid) as [votes|]; [|done].
    by exists votes. }
  destruct (Propagate_cases s s' _ errs Hrun)
    as [->|[(k & sid0 & sid1 & _ & _ & Hsid0 & Hfree & Happ & ->)
           |(ids & data & ? & _)]]; [by rewrite Hsid| |done].
  destruct (decide (key (Some k) = key id)) as [Heq|Hne].
  2:{ rewrite get_store_other by done. by rewrite Hsid. }
  unfold getIdentityStorage in *. rewrite <-Heq in *.
  unfold store; simpl. rewrite lookup_insert_eq. simplify_eq.
  simpl in Happ. destruct (Votes sid) as [votes|] eqn:Hvotes; [|done].
  simplify_eq. eexists. split; [reflexivity|]. simpl.
  repeat (split; [done|]). eexists. split; [reflexivity|].
  split; [rewrite dom_insert_L; apply union_subseteq_r|].
  intros signer Hne. by apply lookup_insert_ne.
Qed.

(** X5.  A round has to be opened before a vote can be filed.  On a
    storage whose map of votes is nil, as [AddIdentity] leaves it, the
    event [ProposeVote] panics on the write to the nil map; once the
    event [ProposeSend] has been applied, with whatever config, the same
    vote is filed and is the one vote on record. *)
Theorem RecordVote_needs_a_round
    (s : Service) (v : ProposeVote_msg) (k : string) (sid : storage) :
  pv_ID v = Some k →
  getIdentityStorage s (pv_ID v) = Some sid →
  locked sid = false →
  Votes sid = None →
  Propagate s (MsgProposeVote v) = Panics ∧
  ∀ config, ∃ s1 s2 sid2,
    Propagate s (MsgProposeSend {| ps_ID := pv_ID v; ps_Config := config |})
    = Returns (s1, []) ∧
    Propagate s1 (MsgProposeVote v) = Returns (s2, []) ∧
    getIdentityStorage s2 (pv_ID v) = Some sid2 ∧
    Votes sid2 = Some {[ pv_Signer v := pv_Signature v ]} ∧
    Proposed sid2 = config ∧ Latest sid2 = Latest sid.
Proof.
  intros Hid Hsid Hfree Hnil. split.
  - rewrite (Propagate_held s (MsgProposeVote v) k sid Hid Hsid Hfree).
    simpl. by rewrite Hnil.
  - intros config.
    set (p := {| ps_ID := pv_ID v; ps_Config := config |}).
    rewrite (Propagate_held s (MsgProposeSend p) k sid Hid Hsid Hfree).
    plumb. eexists _, _, _. split; [reflexivity|].
    rewrite (Propagate_held _ (MsgProposeVote v) k _ Hid (get_store _ _ _))
      by done.
    plumb. split; [reflexivity|]. split; [apply get_store|]. simpl.
    by rewrite insert_empty.
Qed.


(** X7.  [InstallCommitted] with a block that cannot be installed: when
    the payload does not decode, or decodes to something that is not a
    config, the server is left exactly as it was and one line is
    logged. *)
Theorem InstallCommitted_undecodable
    (s : Service) (u : UpdateSkipBlock_msg) (k : string) (sid : storage)
    (skipblock : SkipBlock) :
  usb_ID u = Some k →
  getIdentityStorage s (usb_ID u) = Some sid →
  locked sid = false →
  usb_Latest u = Some skipblock →
  (∀ al, UnmarshalRegistered (sb_Data skipblock) ≠ inr (BodyConfig al)) →
  ∃ line, Propagate s (MsgUpdateSkipBlock u) = Returns (s, [line]).
Proof.
  intros Hid Hsid Hfree Hblock Hbad.
  rewrite (Propagate_held s (MsgUpdateSkipBlock u) k sid Hid Hsid Hfree).
  simpl. rewrite Hblock.
  assert (Hback : with_lock false (with_lock true sid) = sid)
    by by rewrite with_lock_idem, with_lock_free.
  destruct (UnmarshalRegistered (sb_Data skipblock)) as [err|[al|]] eqn:Hdec;
    [|by destruct (Hbad al)|]; plumb; eexists;
    by rewrite Hback, (store_same _ _ _ Hsid).
Qed.

End ReplicaInvariants.

(** ** What a broadcast does to the roster *)

Section Broadcasts.
Context `{Ext : Externals}.

#[local] Arguments Propagate : simpl never.

(** A member that holds the identity of a round event, with the mutex
    free, files what the handler makes of its storage. *)
Lemma deliver_held (msg : Msg) (r : Service) (k : string)
    (sid sid' : storage) (errs : list string) :
  msg_ID msg = Some k →
  getIdentityStorage r (msg_ID msg) = Some sid →
  locked sid = false →
  apply_locked (with_lock true sid) msg = Returns (sid', errs) →
  (deliver msg r).1 = store r (msg_ID msg) (with_lock false sid').
Proof.
  intros Hid Hsid Hfree Happ. unfold deliver.
  rewrite (Propagate_held r msg k sid Hid Hsid Hfree), Happ. by plumb.
Qed.

(** A member that does not hold the identity, or holds it with the
    mutex taken, is as it was after the broadcast of a round event. *)
Lemma deliver_skipped (msg : Msg) (r : Service) :
  (∀ pi, msg ≠ MsgPropagateIdentity pi) →
  (∀ sid, getIdentityStorage r (msg_ID msg) = Some sid → locked sid = true) →
  (deliver msg r).1 = r.
Proof.
  intros Hround Hskip. unfold deliver.
  destruct (Propagate r msg) as [[r' errs]| |] eqn:Hrun; [|done..]. simpl.
  destruct (Propagate_cases r r' msg errs Hrun)
    as [->|[(k & sid & sid' & Hid & _ & Hsid & Hfree & _)
           |(ids & data & -> & _)]]; [done| |by destruct (Hround (Some ids))].
  rewrite <-Hid in Hsid. rewrite (Hskip sid Hsid) in Hfree. done.
Qed.

(** The members of the network after a broadcast that started: each is
    what [deliver] makes of it, the coordinator included unless its
    handler hangs on a held mutex. *)
Lemma broadcast_members (n n' : Net) (msg : Msg) (acks : nat) :
  PropagateStartAndWait n msg = Returns (n', inr acks) →
  peers n' = (λ r, (deliver msg r).1) <$> peers n ∧
  self n' = (deliver msg (self n)).1.
Proof.
  unfold PropagateStartAndWait. intros Hrun.
  destruct (PropagateStartError msg); [done|].
  unfold deliver at 2.
  destruct (Propagate (self n) msg) as [[s' errs]| |]; simplify_eq; simpl;
    by rewrite <-list_fmap_compose.
Qed.

(** A broadcast that the coordinator can apply does start and return. *)
Lemma broadcast_returns (n : Net) (msg : Msg) :
  PropagateStartError msg = None →
  Propagate (self n) msg ≠ Panics →
  ∃ n' acks, PropagateStartAndWait n msg = Returns (n', inr acks).
Proof.
  intros Hstart Hsafe. unfold PropagateStartAndWait. rewrite Hstart.
  destruct (Propagate (self n) msg) as [[s' errs]| |]; [by eexists _, _|done|
    by eexists _, _].
Qed.

Lemma broadcast_all (n n' : Net) (msg : Msg) (acks : nat) :
  PropagateStartAndWait n msg = Returns (n', inr acks) →
  members n' = (λ r, (deliver msg r).1) <$> members n.
Proof.
  intros Hrun. destruct (broadcast_members n n' msg acks Hrun) as [Hp Hs].
  unfold members. by rewrite Hp, Hs.
Qed.

(** The handler of [ProposeSend] has nothing to dereference. *)
Lemma SetProposed_never_panics (s : Service) (p : ProposeSend_msg) :
  Propagate s (MsgProposeSend p) ≠ Panics.
Proof.
  unfold Propagate. cbn [msg_ID].
  destruct (ps_ID p); [|done].
  destruct (getIdentityStorage s _) as [sid|]; [|done].
  by destruct (locked sid).
Qed.

(** X8.  [ProposeSend] on an identity the coordinator holds: the one
    call is the broadcast, the reply is the empty success, and
    afterwards every server of the roster that holds the identity with
    its mutex free has the config sent as [Proposed] and an empty map of
    votes, its [Latest] and chain heads untouched.  A server that does
    not hold the identity, or whose mutex is taken, is as it was; no
    other identity moves anywhere. *)
Theorem ProposeSend_reaches_all
    (n : Net) (p : ProposeSend_msg) (k : string) (sid : storage)
    (root : SkipBlock) :
  ps_ID p = Some k →
  getIdentityStorage (self n) (ps_ID p) = Some sid →
  Root sid = Some root →
  PropagateStartError (MsgProposeSend p) = None →
  ∃ n' warnings,
    ProposeSend n p
    = Run [Broadcast (MsgProposeSend p)] (Returns (n', warnings, inr ())) ∧
    length (members n') = length (members n) ∧
    ∀ i r r',
      members n !! i = Some r → members n' !! i = Some r' →
      (∀ id, key id ≠ k →
             getIdentityStorage r' id = getIdentityStorage r id) ∧
      match getIdentityStorage r (ps_ID p) with
      | None => r' = r
      | Some sidr =>
          if locked sidr then r' = r
          else ∃ sidr',
                 getIdentityStorage r' (ps_ID p) = Some sidr' ∧
                 Proposed sidr' = ps_Config p ∧ Votes sidr' = Some ∅ ∧
                 Latest sidr' = Latest sidr ∧ Root sidr' = Root sidr ∧
                 Data sidr' = Data sidr ∧ locked sidr' = false
      end.
Proof.
  intros Hid Hsid Hroot Hstart.
  destruct (broadcast_returns n (MsgProposeSend p) Hstart
              (SetProposed_never_panics _ _)) as (n' & acks & Hcast).
  pose proof (broadcast_all n n' _ acks Hcast) as Hall.
  exists n', (short_of n acks). split.
  { unfold ProposeSend. rewrite Hsid, Hroot.
    unfold mbind, mret, run_bind, run_ret, quiet, call.
    cbn [trace result deref]. by rewrite Hcast. }
  rewrite Hall. split; [by rewrite length_fmap|].
  intros i r r' Hr Hr'. rewrite list_lookup_fmap, Hr in Hr'.
  injection Hr' as <-. split.
  - intros id Hne. unfold deliver.
    destruct (Propagate r (MsgProposeSend p)) as [[r' errs]| |] eqn:Hrun;
      [|done..].
    apply (Propagate_other_identities r r' _ errs id Hrun).
    simpl. rewrite Hid. congruence.
  - destruct (getIdentityStorage r (ps_ID p)) as [sidr|] eqn:Hsidr.
    2:{ apply deliver_skipped; [done|]. cbn [msg_ID]. by rewrite Hsidr. }
    destruct (locked sidr) eqn:Hfree.
    { apply deliver_skipped; [done|]. cbn [msg_ID]. rewrite Hsidr.
      by intros ? [= <-]. }
    rewrite (deliver_held (MsgProposeSend p) r k sidr _ [] Hid Hsidr Hfree eq_refl).
    eexists. split; [apply get_store|]. by simpl.
Qed.

End Broadcasts.

(** ** The requests of a client *)

Section Requests.
Context `{Ext : Externals}.

#[local] Arguments Propagate : simpl never.

Ltac run_steps :=
  unfold mbind, mret, run_bind, run_ret, quiet, call;
  cbn [trace result deref].

(** X9.  The two read requests never write: whenever [ConfigUpdate] or
    [ProposeFetch] returns, no collaborator was called and the network
    is what it was; the reply is the error exactly when the server does
    not hold the identity, and otherwise carries the id asked for with
    [Latest], respectively [Proposed], whatever config the request
    itself carried. *)
Theorem reads_never_write (n n' : Net) (calls : list Effect) :
  (∀ cu rep,
     ConfigUpdate n cu = Run calls (Returns (n', rep)) →
     n' = n ∧ calls = [] ∧
     match getIdentityStorage (self n) (cu_ID cu) with
     | None => rep = inl "Didn't find Identity"
     | Some sid =>
         rep = inr {| cu_ID := cu_ID cu; cu_AccountList := Latest sid |}
     end) ∧
  (∀ cnc rep,
     ProposeFetch n cnc = Run calls (Returns (n', rep)) →
     n' = n ∧ calls = [] ∧
     match getIdentityStorage (self n) (pf_ID cnc) with
     | None => rep = inl "Didn't find Identity"
     | Some sid =>
         rep = inr {| pf_ID := pf_ID cnc; pf_AccountList := Proposed sid |}
     end).
Proof.
  assert (Hback : ∀ id sid,
            getIdentityStorage (self n) id = Some sid → locked sid = false →
            with_self n (store (self n) id (with_lock false (with_lock true sid)))
            = n).
  { intros id sid Hsid Hfree.
    rewrite with_lock_idem, (with_lock_free sid Hfree), (store_same _ _ _ Hsid).
    by destruct n. }
  split.
  - intros cu rep. unfold ConfigUpdate.
    destruct (getIdentityStorage (self n) (cu_ID cu)) as [sid|] eqn:Hsid.
    + destruct (locked sid) eqn:Hfree; [done|]. run_steps.
      rewrite (Hback _ _ Hsid Hfree). by intros [= <- <- <-].
    + run_steps. by intros [= <- <- <-].
  - intros cnc rep. unfold ProposeFetch.
    destruct (getIdentityStorage (self n) (pf_ID cnc)) as [sid|] eqn:Hsid.
    + destruct (locked sid) eqn:Hfree; [done|]. run_steps.
      rewrite (Hback _ _ Hsid Hfree). by intros [= <- <- <-].
    + run_steps. by intros [= <- <- <-].
Qed.

(** X10.  What is sent is what is fetched: after [ProposeSend] on an
    identity the coordinator holds with its mutex free, [ProposeFetch]
    at that server replies with the config sent, and [ConfigUpdate]
    still replies with the [Latest] of before. *)
Theorem ProposeSend_then_ProposeFetch
    (n : Net) (p : ProposeSend_msg) (k : string) (sid : storage)
    (root : SkipBlock) :
  ps_ID p = Some k →
  getIdentityStorage (self n) (ps_ID p) = Some sid →
  locked sid = false →
  Root sid = Some root →
  PropagateStartError (MsgProposeSend p) = None →
  ∃ n' warnings,
    ProposeSend n p
    = Run [Broadcast (MsgProposeSend p)] (Returns (n', warnings, inr ())) ∧
    (∀ asked,
       ProposeFetch n' {| pf_ID := ps_ID p; pf_AccountList := asked |}
       = Run [] (Returns (n', inr {| pf_ID := ps_ID p;
                                     pf_AccountList := ps_Config p |}))) ∧
    (∀ asked,
       ConfigUpdate n' {| cu_ID := ps_ID p; cu_AccountList := asked |}
       = Run [] (Returns (n', inr {| cu_ID := ps_ID p;
                                     cu_AccountList := Latest sid |}))).
Proof.
  intros Hid Hsid Hfree Hroot Hstart.
  destruct (broadcast_returns n (MsgProposeSend p) Hstart
              (SetProposed_never_panics _ _)) as (n' & acks & Hcast).
  destruct (broadcast_members n n' _ acks Hcast) as [_ Hself].
  rewrite (deliver_held (MsgProposeSend p) (self n) k sid _ [] Hid Hsid Hfree
             eq_refl) in Hself.
  cbn [msg_ID] in Hself.
  set (sid' := with_lock false _) in Hself.
  assert (Hsid' : getIdentityStorage (self n') (ps_ID p) = Some sid')
    by (rewrite Hself; apply get_store).
  assert (Hback : with_self n' (store (self n') (ps_ID p)
                    (with_lock false (with_lock true sid'))) = n').
  { rewrite with_lock_idem, (with_lock_free sid') by done.
    rewrite (store_same _ _ _ Hsid'). by destruct n'. }
  exists n', (short_of n acks). split; [|split].
  - unfold ProposeSend. rewrite Hsid, Hroot. run_steps. by rewrite Hcast.
  - intros asked. unfold ProposeFetch. cbn [pf_ID]. rewrite Hsid'.
    cbn [locked sid' with_lock]. run_steps. by rewrite Hback.
  - intros asked. unfold ConfigUpdate. cbn [cu_ID]. rewrite Hsid'.
    cbn [locked sid' with_lock]. run_steps. by rewrite Hback.
Qed.

(** X11.  A request about an identity the server does not hold is turned
    away on the spot, by each of the four handlers that look an identity
    up: the reply is the not-found error, no collaborator is called and
    the network is untouched. *)
Theorem unknown_identity_is_turned_away (n : Net) (id : ID) :
  getIdentityStorage (self n) id = None →
  (∀ v, pv_ID v = id →
        ProposeVote n v = Run [] (Returns (n, inl "Didn't find identity"))) ∧
  (∀ p, ps_ID p = id →
        ProposeSend n p
        = Run [] (Returns (n, [], inl "Didn't find Identity"))) ∧
  (∀ cnc, pf_ID cnc = id →
        ProposeFetch n cnc = Run [] (Returns (n, inl "Didn't find Identity"))) ∧
  (∀ cu, cu_ID cu = id →
        ConfigUpdate n cu = Run [] (Returns (n, inl "Didn't find Identity"))).
Proof.
  intros Hnone. repeat split; intros ? <-.
  - unfold ProposeVote. by rewrite Hnone.
  - unfold ProposeSend. by rewrite Hnone.
  - unfold ProposeFetch. by rewrite Hnone.
  - unfold ConfigUpdate. by rewrite Hnone.
Qed.

(** X12.  A vote whose signature does not verify under the key of the
    signer is answered with the text of the verifier behind [Wrong
    signature: ], before anything is sent: no collaborator is called,
    and the vote is on record nowhere, the maps of votes being what they
    were on every server. *)
Theorem ProposeVote_rejects_bad_signature
    (n : Net) (v : ProposeVote_msg) (sid : storage)
    (latest proposed : Config) (owner : Point) (hash : string)
    (sig : SchnorrSig) (err : string) :
  getIdentityStorage (self n) (pv_ID v) = Some sid →
  locked sid = false →
  Latest sid = Some latest →
  Proposed sid = Some proposed →
  Device latest !! pv_Signer v = Some owner →
  Config_Hash proposed = Some hash →
  voted sid (pv_Signer v) = false →
  pv_Signature v = Some sig →
  VerifySchnorr owner hash sig = Some err →
  ∃ n' sid',
    ProposeVote n v = Run [] (Returns (n', inl ("Wrong signature: " +:+ err))) ∧
    peers n' = peers n ∧
    getIdentityStorage (self n') (pv_ID v) = Some sid' ∧
    Votes sid' = Votes sid ∧ voted sid' (pv_Signer v) = false ∧
    (∀ id', key id' ≠ key (pv_ID v) →
       getIdentityStorage (self n') id' = getIdentityStorage (self n) id').
Proof.
  intros Hsid Hfree Hl Hp Hdev Hhash Hnew Hsig Hbad.
  unfold ProposeVote. rewrite Hsid, Hfree.
  unfold check_vote. cbn [with_lock Proposed Latest].
  rewrite Hp, Hl. cbn [deref]. unfold mbind at 2 3, outcome_bind, obind.
  rewrite Hdev, Hhash.
  assert (voted (with_lock true sid) (pv_Signer v) = false) as -> by done.
  rewrite Hsig, Hbad. run_steps.
  eexists _, _. split; [reflexivity|]. cbn [with_self self peers].
  split; [done|]. split; [apply get_store|]. repeat split; try done.
  intros id' Hne. by apply get_store_other.
Qed.

(** A vote that goes out is on the record of calls. *)
Lemma vote_and_commit_calls (n : Net) (sid : storage) (v : ProposeVote_msg)
    (x : Net * reply (option SkipBlock)) :
  result (vote_and_commit n sid v) = Returns x →
  ∃ rest, trace (vote_and_commit n sid v)
          = Broadcast (MsgProposeVote v) :: rest.
Proof.
  unfold vote_and_commit. destruct (Root sid); run_steps; [|done].
  destruct (PropagateStartAndWait n (MsgProposeVote v)) as [r| |];
    cbn [trace result app]; [|done..].
  intros _. by eexists.
Qed.

(** X13.  An error of the local checks costs the identity its server.
    When [ProposeVote] replies with an error without having called a
    collaborator, on an identity it found with the mutex free, the one
    change to the network is that this mutex is now held, for no path
    from line 151 to an error return unlocks it; and from then on every
    request and every event about the identity at this server waits
    for ever. *)
Theorem local_error_leaves_mutex_held
    (n n' : Net) (v : ProposeVote_msg) (sid : storage) (err : string) :
  getIdentityStorage (self n) (pv_ID v) = Some sid →
  locked sid = false →
  ProposeVote n v = Run [] (Returns (n', inl err)) →
  n' = with_self n (store (self n) (pv_ID v) (with_lock true sid)) ∧
  (∀ v', pv_ID v' = pv_ID v → ProposeVote n' v' = Run [] Blocks) ∧
  (∀ cu, cu_ID cu = pv_ID v → ConfigUpdate n' cu = Run [] Blocks) ∧
  (∀ cnc, pf_ID cnc = pv_ID v → ProposeFetch n' cnc = Run [] Blocks) ∧
  (∀ msg, is_Some (pv_ID v) → msg_ID msg = pv_ID v →
          Propagate (self n') msg = Blocks).
Proof.
  intros Hsid Hfree Hrun.
  assert (Hheld : n' = with_self n (store (self n) (pv_ID v) (with_lock true sid))).
  { unfold ProposeVote in Hrun. rewrite Hsid, Hfree in Hrun.
    destruct (check_vote (with_lock true sid) v) as [[err'|]| |];
      revert Hrun; run_steps; [by intros [= <- <-]| |done..].
    intros [= Hcalls Hres].
    destruct (vote_and_commit_calls _ _ _ _ Hres) as [rest Hrest].
    exfalso. clear -Hcalls Hrest.
    set (calls := trace _) in Hcalls.
    change (calls = Broadcast (MsgProposeVote v) :: rest) in Hrest.
    congruence. }
  split; [done|]. subst n'. cbn [with_self self].
  repeat split.
  - intros v' Hv'. unfold ProposeVote. cbn [self with_self].
    by rewrite Hv', get_store.
  - intros cu Hcu. unfold ConfigUpdate. cbn [self with_self].
    by rewrite Hcu, get_store.
  - intros cnc Hcnc. unfold ProposeFetch. cbn [self with_self].
    by rewrite Hcnc, get_store.
  - intros msg [k Hk] Hmsg. unfold Propagate.
    destruct msg as [p|v'|u|pi|]; cbn [msg_ID] in *;
      try (rewrite Hk in Hmsg; discriminate);
      by rewrite Hmsg, Hk, <-Hk, get_store.
Qed.

End Requests.

(** ** A round, from the vote that makes the quorum on *)

Section Rounds.
Context `{Ext : Externals}.

#[local] Arguments Propagate : simpl never.

Ltac run_steps :=
  unfold mbind, mret, run_bind, run_ret, quiet, call;
  cbn [trace result deref fst snd app].

(** What a member does with a vote it can file. *)
Lemma deliver_vote (r : Service) (v : ProposeVote_msg) (k : string)
    (sid : storage) (votes : gmap string (option SchnorrSig)) :
  pv_ID v = Some k →
  getIdentityStorage r (pv_ID v) = Some sid →
  locked sid = false →
  Votes sid = Some votes →
  (deliver (MsgProposeVote v) r).1
  = store r (pv_ID v) (record_vote sid v votes).
Proof.
  intros Hid Hsid Hfree Hvotes.
  rewrite (deliver_held (MsgProposeVote v) r k sid
             (record_vote (with_lock true sid) v votes) [] Hid Hsid Hfree).
  - cbn [msg_ID]. f_equal. unfold record_vote, with_lock; simpl.
    by rewrite Hfree.
  - simpl. by rewrite Hvotes.
Qed.

(** What a member does with a committed block it can install. *)
Lemma deliver_block (r : Service) (id : ID) (k : string) (block : SkipBlock)
    (al : Config) (sid : storage) :
  id = Some k →
  getIdentityStorage r id = Some sid →
  locked sid = false →
  UnmarshalRegistered (sb_Data block) = inr (BodyConfig al) →
  (deliver (MsgUpdateSkipBlock {| usb_ID := id; usb_Latest := Some block |}) r).1
  = store r id {| locked := false; Latest := Some al; Proposed := None;
                  Votes := Votes sid; Root := Root sid; Data := Some block |}.
Proof.
  intros Hid Hsid Hfree Hdec.
  rewrite (deliver_held _ r k sid
             {| locked := true; Latest := Some al; Proposed := None;
                Votes := Votes sid; Root := Root sid; Data := Some block |} []);
    try done.
  simpl. by rewrite Hdec.
Qed.

(** The round that commits, step by step: the two broadcasts start and
    return, and the request makes its three calls and replies with the
    head of the data chain the coordinator holds at the end. *)
Lemma commit_round
    (n : Net) (v : ProposeVote_msg) (k : string) (sid : storage)
    (latest proposed : Config) (root block : SkipBlock)
    (votes : gmap string (option SchnorrSig))
    (owner : Point) (hash : string) (al : Config) :
  let usb := MsgUpdateSkipBlock {| usb_ID := pv_ID v; usb_Latest := Some block |} in
  pv_ID v = Some k →
  getIdentityStorage (self n) (pv_ID v) = Some sid →
  locked sid = false →
  Latest sid = Some latest →
  Proposed sid = Some proposed →
  Votes sid = Some votes →
  Root sid = Some root →
  Device latest !! pv_Signer v = Some owner →
  Config_Hash proposed = Some hash →
  votes !! pv_Signer v = None →
  signature_passes owner hash v →
  PropagateStartError (MsgProposeVote v) = None →
  (Threshold latest ≤ Z.of_nat (S (size votes)))%Z
  ∨ S (size votes) = size (Device latest) →
  ProposeData (Root sid) (Data sid) (Proposed sid) = inr block →
  UnmarshalRegistered (sb_Data block) = inr (BodyConfig al) →
  PropagateStartError usb = None →
  ∃ n' n'',
    members n' = (λ r, (deliver (MsgProposeVote v) r).1) <$> members n ∧
    members n'' = (λ r, (deliver usb r).1) <$> members n' ∧
    ProposeVote n v
    = Run [Broadcast (MsgProposeVote v);
           Append (Root sid) (Data sid) (Proposed sid); Broadcast usb]
          (Returns (n'', inr (Some block))).
Proof.
  intros usb Hid Hsid Hfree Hl Hp Hvotes Hroot Hdev Hhash Hnew Hsig Hstart
    Hquorum Happ Hdec Hstart'.
  assert (Hnot : voted sid (pv_Signer v) = false).
  { unfold voted. rewrite Hvotes. apply bool_decide_eq_false.
    rewrite Hnew. by intros [? ?]. }
  rewrite (ProposeVote_passes n v sid latest proposed owner hash) by done.
  destruct (vote_and_commit_run n v k sid latest root votes)
    as (n' & acks & Hcast & Hsid' & ->); try done.
  set (sid' := record_vote sid v votes) in *.
  assert (Hlen : len_Votes sid' = Z.of_nat (S (size votes))).
  { unfold len_Votes; simpl. by rewrite map_size_insert_None. }
  rewrite Hlen.
  assert (bool_decide (Threshold latest ≤ Z.of_nat (S (size votes)))%Z
          || bool_decide (Z.of_nat (S (size votes))
                          = Z.of_nat (size (Device latest))) = true) as ->.
  { apply orb_true_iff. rewrite !bool_decide_eq_true.
    destruct Hquorum as [?|?]; [by left|right; lia]. }
  assert (Hfree' : locked sid' = false) by done.
  pose proof (deliver_block (self n') (pv_ID v) k block al sid' Hid Hsid'
                Hfree' Hdec) as Hinst. fold usb in Hinst.
  destruct (broadcast_returns n' usb Hstart') as (n'' & acks' & Hcast').
  { rewrite (Propagate_held (self n') usb k sid' Hid Hsid' Hfree').
    simpl. by rewrite Hdec. }
  destruct (broadcast_members n' n'' usb acks' Hcast') as [_ Hself''].
  exists n', n''.
  split; [by apply (broadcast_all n n' _ acks)|].
  split; [by apply (broadcast_all n' n'' _ acks')|].
  unfold commit. change (Proposed sid') with (Proposed sid).
  change (Root sid') with (Root sid). change (Data sid') with (Data sid).
  rewrite Hp, Hroot. run_steps. rewrite <-Hp, <-Hroot, Happ. run_steps.
  rewrite Hdec. run_steps. fold usb. rewrite Hcast'. run_steps.
  rewrite Hself'', Hinst, get_store. by run_steps.
Qed.

(** X14.  The round that commits, on every server.  When the vote
    makes the quorum, the chain engine appends a block and the payload
    of the block decodes to the config [al], [ProposeVote] calls the
    broadcast of the vote, the engine and the broadcast of the block, in
    this order, and replies with the block.  Every server of the roster
    that held the identity with its mutex free and a map of votes ends
    with [al] as [Latest], whatever it had before, with no proposal,
    with the block as head of its data chain, and with the vote added to
    the votes it had, which the commit does not erase. *)
Theorem ProposeVote_commit_installs_everywhere
    (n : Net) (v : ProposeVote_msg) (k : string) (sid : storage)
    (latest proposed : Config) (root block : SkipBlock)
    (votes : gmap string (option SchnorrSig))
    (owner : Point) (hash : string) (al : Config) :
  let usb := MsgUpdateSkipBlock {| usb_ID := pv_ID v; usb_Latest := Some block |} in
  pv_ID v = Some k →
  getIdentityStorage (self n) (pv_ID v) = Some sid →
  locked sid = false →
  Latest sid = Some latest →
  Proposed sid = Some proposed →
  Votes sid = Some votes →
  Root sid = Some root →
  Device latest !! pv_Signer v = Some owner →
  Config_Hash proposed = Some hash →
  votes !! pv_Signer v = None →
  signature_passes owner hash v →
  PropagateStartError (MsgProposeVote v) = None →
  (Threshold latest ≤ Z.of_nat (S (size votes)))%Z
  ∨ S (size votes) = size (Device latest) →
  ProposeData (Root sid) (Data sid) (Proposed sid) = inr block →
  UnmarshalRegistered (sb_Data block) = inr (BodyConfig al) →
  PropagateStartError usb = None →
  ∃ n'',
    ProposeVote n v
    = Run [Broadcast (MsgProposeVote v);
           Append (Root sid) (Data sid) (Proposed sid); Broadcast usb]
          (Returns (n'', inr (Some block))) ∧
    length (members n'') = length (members n) ∧
    ∀ i r r'' sidr votesr,
      members n !! i = Some r → members n'' !! i = Some r'' →
      getIdentityStorage r (pv_ID v) = Some sidr →
      locked sidr = false →
      Votes sidr = Some votesr →
      getIdentityStorage r'' (pv_ID v)
      = Some {| locked := false; Latest := Some al; Proposed := None;
                Votes := Some (<[pv_Signer v := pv_Signature v]> votesr);
                Root := Root sidr; Data := Some block |}.
Proof.
  intros usb Hid Hsid Hfree Hl Hp Hvotes Hroot Hdev Hhash Hnew Hsig Hstart
    Hquorum Happ Hdec Hstart'.
  destruct (commit_round n v k sid latest proposed root block votes owner hash al)
    as (n' & n'' & Hn' & Hn'' & Hrun); try done.
  exists n''. split; [done|]. rewrite Hn'', Hn'.
  split; [by rewrite !length_fmap|].
  intros i r r'' sidr votesr Hr Hr'' Hsidr Hfreer Hvotesr.
  rewrite !list_lookup_fmap, Hr in Hr''. injection Hr'' as <-.
  rewrite (deliver_vote r v k sidr votesr) by done.
  rewrite (deliver_block _ (pv_ID v) k block al (record_vote sidr v votesr))
    by (try done; apply get_store).
  by rewrite get_store.
Qed.

(** X15.  A round commits once.  After the commit of X14 the
    coordinator holds the identity without a proposal, and any further
    [ProposeVote] on it, by whichever signer, calls no collaborator and
    panics at line 152: no second block can be appended for the round
    until a [ProposeSend] opens the next one. *)
Theorem no_vote_after_commit
    (n : Net) (v : ProposeVote_msg) (k : string) (sid : storage)
    (latest proposed : Config) (root block : SkipBlock)
    (votes : gmap string (option SchnorrSig))
    (owner : Point) (hash : string) (al : Config) :
  let usb := MsgUpdateSkipBlock {| usb_ID := pv_ID v; usb_Latest := Some block |} in
  pv_ID v = Some k →
  getIdentityStorage (self n) (pv_ID v) = Some sid →
  locked sid = false →
  Latest sid = Some latest →
  Proposed sid = Some proposed →
  Votes sid = Some votes →
  Root sid = Some root →
  Device latest !! pv_Signer v = Some owner →
  Config_Hash proposed = Some hash →
  votes !! pv_Signer v = None →
  signature_passes owner hash v →
  PropagateStartError (MsgProposeVote v) = None →
  (Threshold latest ≤ Z.of_nat (S (size votes)))%Z
  ∨ S (size votes) = size (Device latest) →
  ProposeData (Root sid) (Data sid) (Proposed sid) = inr block →
  UnmarshalRegistered (sb_Data block) = inr (BodyConfig al) →
  PropagateStartError usb = None →
  ∃ n'' calls,
    ProposeVote n v = Run calls (Returns (n'', inr (Some block))) ∧
    commit_fired calls = true ∧
    ∀ v', pv_ID v' = pv_ID v →
          ProposeVote n'' v' = Run [] Panics ∧
          commit_fired (trace (ProposeVote n'' v')) = false.
Proof.
  intros usb Hid Hsid Hfree Hl Hp Hvotes Hroot Hdev Hhash Hnew Hsig Hstart
    Hquorum Happ Hdec Hstart'.
  destruct (commit_round n v k sid latest proposed root block votes owner hash al)
    as (n' & n'' & Hn' & Hn'' & Hrun); try done.
  exists n''. eexists. split; [exact Hrun|]. split; [done|].
  assert (Hself : self n''
                  = (deliver usb (deliver (MsgProposeVote v) (self n)).1).1).
  { unfold members in Hn', Hn''. rewrite Hn' in Hn''. simpl in Hn''.
    by injection Hn''. }
  rewrite (deliver_vote (self n) v k sid votes) in Hself by done.
  rewrite (deliver_block _ (pv_ID v) k block al (record_vote sid v votes))
    in Hself by (try done; apply get_store).
  intros v' Hv'.
  assert (ProposeVote n'' v' = Run [] Panics) as ->; [|done].
  unfold ProposeVote. by rewrite Hv', Hself, get_store.
Qed.

(** X16.  When the chain engine refuses the block, the commit stops
    there: the error of the engine is the reply, the block is not
    broadcast, and the coordinator keeps the identity as the vote left
    it, with the vote on record and [Latest], [Proposed] and the chain
    heads untouched.  The signer cannot send the vote again to have the
    append retried: it is on record, and the request is answered
    [DuplicateVote]. *)
Theorem ledger_error_keeps_vote
    (n : Net) (v : ProposeVote_msg) (k : string) (sid : storage)
    (latest proposed : Config) (root : SkipBlock)
    (votes : gmap string (option SchnorrSig))
    (owner : Point) (hash : string) (err : string) :
  pv_ID v = Some k →
  getIdentityStorage (self n) (pv_ID v) = Some sid →
  locked sid = false →
  Latest sid = Some latest →
  Proposed sid = Some proposed →
  Votes sid = Some votes →
  Root sid = Some root →
  Device latest !! pv_Signer v = Some owner →
  Config_Hash proposed = Some hash →
  votes !! pv_Signer v = None →
  signature_passes owner hash v →
  PropagateStartError (MsgProposeVote v) = None →
  (Threshold latest ≤ Z.of_nat (S (size votes)))%Z
  ∨ S (size votes) = size (Device latest) →
  ProposeData (Root sid) (Data sid) (Proposed sid) = inl err →
  ∃ n' n'',
    ProposeVote n v
    = Run [Broadcast (MsgProposeVote v);
           Append (Root sid) (Data sid) (Proposed sid)]
          (Returns (n', inl err)) ∧
    getIdentityStorage (self n') (pv_ID v) = Some (record_vote sid v votes) ∧
    ProposeVote n' v = Run [] (Returns (n'', inl DuplicateVote)).
Proof.
  intros Hid Hsid Hfree Hl Hp Hvotes Hroot Hdev Hhash Hnew Hsig Hstart
    Hquorum Happ.
  assert (Hnot : voted sid (pv_Signer v) = false).
  { unfold voted. rewrite Hvotes. apply bool_decide_eq_false.
    rewrite Hnew. by intros [? ?]. }
  rewrite (ProposeVote_passes n v sid latest proposed owner hash) by done.
  destruct (vote_and_commit_run n v k sid latest root votes)
    as (n' & acks & Hcast & Hsid' & ->); try done.
  set (sid' := record_vote sid v votes) in *.
  assert (Hlen : len_Votes sid' = Z.of_nat (S (size votes))).
  { unfold len_Votes; simpl. by rewrite map_size_insert_None. }
  rewrite Hlen.
  assert (bool_decide (Threshold latest ≤ Z.of_nat (S (size votes)))%Z
          || bool_decide (Z.of_nat (S (size votes))
                          = Z.of_nat (size (Device latest))) = true) as ->.
  { apply orb_true_iff. rewrite !bool_decide_eq_true.
    destruct Hquorum as [?|?]; [by left|right; lia]. }
  exists n'. eexists. split; [|split; [done|]].
  - unfold commit. change (Proposed sid') with (Proposed sid).
    change (Root sid') with (Root sid). change (Data sid') with (Data sid).
    rewrite Hp. run_steps. rewrite <-Hp, Happ. by run_steps.
  - unfold ProposeVote. rewrite Hsid'. cbn [locked sid' record_vote].
    rewrite Hfree. unfold check_vote.
    cbn [with_lock Proposed Latest sid' record_vote]. rewrite Hp, Hl.
    cbn [deref]. unfold mbind at 2 3, outcome_bind, obind.
    rewrite Hdev, Hhash.
    assert (voted (with_lock true sid') (pv_Signer v) = true) as ->.
    { unfold voted. simpl. apply bool_decide_eq_true.
      rewrite lookup_insert_eq. by eexists. }
    by run_steps.
Qed.

(** X17.  A threshold of one or less, which nothing in the service
    refuses, makes every vote decisive: the first vote that passes the
    local checks fires the commit step. *)
Theorem low_threshold_commits_at_once
    (n : Net) (v : ProposeVote_msg) (k : string) (sid : storage)
    (latest proposed : Config) (root : SkipBlock)
    (votes : gmap string (option SchnorrSig))
    (owner : Point) (hash : string) :
  pv_ID v = Some k →
  getIdentityStorage (self n) (pv_ID v) = Some sid →
  locked sid = false →
  Latest sid = Some latest →
  Proposed sid = Some proposed →
  Votes sid = Some votes →
  Root sid = Some root →
  Device latest !! pv_Signer v = Some owner →
  Config_Hash proposed = Some hash →
  votes !! pv_Signer v = None →
  signature_passes owner hash v →
  PropagateStartError (MsgProposeVote v) = None →
  (Threshold latest ≤ 1)%Z →
  commit_fired (trace (ProposeVote n v)) = true.
Proof.
  intros Hid Hsid Hfree Hl Hp Hvotes Hroot Hdev Hhash Hnew Hsig Hstart Hlow.
  rewrite (ProposeVote_fired n v k sid latest proposed root votes owner hash)
    by done.
  apply orb_true_iff. left. apply bool_decide_eq_true. lia.
Qed.

(** X18.  A vote short of the quorum counts once and disturbs nothing.
    When the commit step does not fire, the coordinator holds one vote
    more than before, still fewer than [Latest.Threshold] and not as
    many as there are devices; [Latest], [Proposed] and the chain heads
    are those of before; and if the signers on record were all devices
    of [Latest], they still are. *)
Theorem vote_below_quorum
    (n : Net) (v : ProposeVote_msg) (k : string) (sid : storage)
    (latest proposed : Config) (root : SkipBlock)
    (votes : gmap string (option SchnorrSig))
    (owner : Point) (hash : string) :
  pv_ID v = Some k →
  getIdentityStorage (self n) (pv_ID v) = Some sid →
  locked sid = false →
  Latest sid = Some latest →
  Proposed sid = Some proposed →
  Votes sid = Some votes →
  Root sid = Some root →
  Device latest !! pv_Signer v = Some owner →
  Config_Hash proposed = Some hash →
  votes !! pv_Signer v = None →
  signature_passes owner hash v →
  PropagateStartError (MsgProposeVote v) = None →
  commit_fired (trace (ProposeVote n v)) = false →
  ∃ n' sid' votes',
    ProposeVote n v
    = Run [Broadcast (MsgProposeVote v)] (Returns (n', inr None)) ∧
    getIdentityStorage (self n') (pv_ID v) = Some sid' ∧
    Votes sid' = Some votes' ∧
    votes' !! pv_Signer v = Some (pv_Signature v) ∧
    len_Votes sid' = (len_Votes sid + 1)%Z ∧
    (len_Votes sid' < Threshold latest)%Z ∧
    len_Votes sid' ≠ Z.of_nat (size (Device latest)) ∧
    Latest sid' = Latest sid ∧ Proposed sid' = Proposed sid ∧
    Root sid' = Root sid ∧ Data sid' = Data sid ∧ locked sid' = false ∧
    (dom votes ⊆ dom (Device latest) → dom votes' ⊆ dom (Device latest)).
Proof.
  intros Hid Hsid Hfree Hl Hp Hvotes Hroot Hdev Hhash Hnew Hsig Hstart Hquiet.
  rewrite (ProposeVote_fired n v k sid latest proposed root votes owner hash)
    in Hquiet by done.
  apply orb_false_iff in Hquiet as [Hth Hall].
  apply bool_decide_eq_false in Hth, Hall.
  assert (Hnot : voted sid (pv_Signer v) = false).
  { unfold voted. rewrite Hvotes. apply bool_decide_eq_false.
    rewrite Hnew. by intros [? ?]. }
  rewrite (ProposeVote_passes n v sid latest proposed owner hash) by done.
  destruct (vote_and_commit_run n v k sid latest root votes)
    as (n' & acks & Hcast & Hsid' & ->); try done.
  set (sid' := record_vote sid v votes) in *.
  assert (Hlen : len_Votes sid' = Z.of_nat (S (size votes))).
  { unfold len_Votes; simpl. by rewrite map_size_insert_None. }
  rewrite Hlen.
  rewrite bool_decide_eq_false_2 by done.
  rewrite bool_decide_eq_false_2 by lia.
  exists n', sid', (<[pv_Signer v:=pv_Signature v]> votes).
  split; [done|]. split; [done|]. split; [done|].
  split; [apply lookup_insert_eq|].
  split; [unfold len_Votes at 2; rewrite Hvotes; simpl; lia|].
  split; [lia|]. split; [lia|]. repeat (split; [done|]).
  intros Hdevices. rewrite dom_insert. apply union_least; [|done].
  apply singleton_subseteq_l, elem_of_dom. by eexists.
Qed.

End Rounds.

(** ** The birth of an identity *)

Section Births.
Context `{Ext : Externals}.

#[local] Arguments Propagate : simpl never.

Ltac run_steps :=
  unfold mbind, mret, run_bind, run_ret, quiet, call;
  cbn [trace result deref fst snd app].

(** X19.  [AddIdentity] with a config, when the chain engine hands back
    a genesis data block whose hash has 8 bytes or more and names an
    identity the coordinator does not hold: the request creates the
    root chain, then the data chain, then broadcasts, and replies with
    the two blocks.  Every server of the roster that did not hold the
    hash now files under it the config as [Latest], no proposal, a nil
    map of votes and the two blocks, its other identities untouched;
    and at the coordinator [ConfigUpdate] gives the config back while
    [ProposeFetch] finds nothing proposed. *)
Theorem AddIdentity_installs_everywhere
    (n : Net) (ai : AddIdentity_msg) (config : Config)
    (root0 root data : SkipBlock) :
  let ids := {| locked := false; Latest := Some config; Proposed := None;
                Votes := None; Root := Some root; Data := Some data |} in
  let msg := MsgPropagateIdentity (Some ids) in
  ai_Config ai = Some config →
  CreateRoster = inr root0 →
  CreateData root0 (Some config) = inr (root, data) →
  PropagateStartError msg = None →
  (8 ≤ len_ID (sb_Hash data))%nat →
  getIdentityStorage (self n) (sb_Hash data) = None →
  ∃ n' warnings,
    AddIdentity n ai
    = Run [NewRoster; NewData root0 (Some config); Broadcast msg]
          (Returns (n', warnings, inr (root, data))) ∧
    length (members n') = length (members n) ∧
    (∀ i r r',
       members n !! i = Some r → members n' !! i = Some r' →
       getIdentityStorage r (sb_Hash data) = None →
       getIdentityStorage r' (sb_Hash data) = Some ids ∧
       ∀ id, key id ≠ key (sb_Hash data) →
             getIdentityStorage r' id = getIdentityStorage r id) ∧
    (∀ asked,
       ConfigUpdate n' {| cu_ID := sb_Hash data; cu_AccountList := asked |}
       = Run [] (Returns (n', inr {| cu_ID := sb_Hash data;
                                     cu_AccountList := Some config |}))) ∧
    (∀ asked,
       ProposeFetch n' {| pf_ID := sb_Hash data; pf_AccountList := asked |}
       = Run [] (Returns (n', inr {| pf_ID := sb_Hash data;
                                     pf_AccountList := None |}))).
Proof.
  intros ids msg Hconfig Hroster Hdata Hstart Hlen Hnone.
  assert (Hnew : ∀ r, getIdentityStorage r (sb_Hash data) = None →
            Propagate r msg = Returns (store r (sb_Hash data) ids, [])).
  { intros r Hr. by apply (InstallIdentity_new r ids data config). }
  destruct (broadcast_returns n msg Hstart) as (n' & acks & Hcast).
  { by rewrite (Hnew _ Hnone). }
  pose proof (broadcast_all n n' msg acks Hcast) as Hall.
  assert (Hself : self n' = store (self n) (sb_Hash data) ids).
  { destruct (broadcast_members n n' msg acks Hcast) as [_ ->].
    unfold deliver. by rewrite (Hnew _ Hnone). }
  assert (Hback : with_self n' (store (self n') (sb_Hash data)
                    (with_lock false (with_lock true ids))) = n').
  { rewrite with_lock_idem, (with_lock_free ids) by done.
    rewrite store_same by (rewrite Hself; apply get_store). by destruct n'. }
  exists n', (short_of n acks). split; [|split; [|split; [|split]]].
  - unfold AddIdentity. rewrite Hroster. run_steps.
    rewrite Hconfig, Hdata. run_steps. fold ids. fold msg.
    rewrite Hcast. by run_steps.
  - by rewrite Hall, length_fmap.
  - intros i r r' Hr Hr' Hfresh. rewrite Hall, list_lookup_fmap, Hr in Hr'.
    injection Hr' as <-. unfold deliver. rewrite (Hnew _ Hfresh). simpl.
    split; [apply get_store|]. intros id Hne. by apply get_store_other.
  - intros asked. unfold ConfigUpdate. cbn [cu_ID].
    rewrite Hself at 1. rewrite get_store. cbn [locked ids]. run_steps.
    by rewrite Hback.
  - intros asked. unfold ProposeFetch. cbn [pf_ID].
    rewrite Hself at 1. rewrite get_store. cbn [locked ids]. run_steps.
    by rewrite Hback.
Qed.

(** X20.  [AddIdentity] fails without a trace on the servers.  When the
    chain engine refuses the root chain, the data chain is not asked
    for; when it refuses the data chain, nothing is broadcast; either
    way the error of the engine is the reply and the network is what it
    was. *)
Theorem AddIdentity_failures_change_nothing
    (n : Net) (ai : AddIdentity_msg) (err : string) :
  (CreateRoster = inl err →
   AddIdentity n ai = Run [NewRoster] (Returns (n, [], inl err))) ∧
  (∀ root0,
     CreateRoster = inr root0 →
     CreateData root0 (ai_Config ai) = inl err →
     AddIdentity n ai
     = Run [NewRoster; NewData root0 (ai_Config ai)]
           (Returns (n, [], inl err))).
Proof.
  split.
  - intros Hroster. unfold AddIdentity. rewrite Hroster. by run_steps.
  - intros root0 Hroster Hdata. unfold AddIdentity. rewrite Hroster.
    run_steps. rewrite Hdata. by run_steps.
Qed.

End Births.

(** ** The deployment at work, continued *)

Section DeploymentFurther.
Import Scenario.
#[local] Existing Instance Scenario.ext.

Lemma Propagate_other_identities_witness :
  ∃ s' errs,
    Propagate (server voting) (MsgProposeVote (vote "B" None))
    = Returns (s', errs) ∧
    getIdentityStorage s' (Some "identity1")
    = getIdentityStorage (server voting) (Some "identity1").
Proof.
  eexists _, _. split; [reflexivity|].
  eapply (Propagate_other_identities (server voting) _
            (MsgProposeVote (vote "B" None))); [reflexivity|discriminate].
Defined.

Lemma Propagate_registry_grows_witness :
  ∃ s' errs,
    Propagate (server voting) (MsgProposeVote (vote "B" None))
    = Returns (s', errs) ∧
    dom (identities (server voting)) ⊆ dom (identities s').
Proof.
  eexists _, _. split; [reflexivity|].
  eapply (Propagate_registry_grows (server voting) _
            (MsgProposeVote (vote "B" None))). reflexivity.
Defined.

Lemma Propagate_releases_mutex_witness :
  ∃ s' errs sid',
    Propagate (server voting) (MsgProposeVote (vote "B" None))
    = Returns (s', errs) ∧
    getIdentityStorage s' id0 = Some sid' ∧
    locked sid' = locked voting.
Proof.
  eexists _, _, _. split; [reflexivity|]. split; [reflexivity|].
  eapply (Propagate_releases_mutex (server voting) _
            (MsgProposeVote (vote "B" None)) _ id0); reflexivity.
Defined.

Lemma RecordVote_touches_votes_only_witness :
  ∃ sid',
    getIdentityStorage
      (store (server voting) id0 (record_vote voting (vote "B" None)
                                    {[ "A" := Some "pkAdigest" ]})) id0
    = Some sid' ∧
    Latest sid' = Latest voting ∧ Proposed sid' = Proposed voting.
Proof.
  destruct (RecordVote_touches_votes_only (server voting) _ (vote "B" None) []
              id0 voting eq_refl eq_refl)
    as (sid' & Hsid' & Hl & Hp & _).
  by exists sid'.
Defined.

Lemma RecordVote_needs_a_round_witness :
  Propagate (server fresh) (MsgProposeVote (vote "A" None)) = Panics.
Proof.
  apply (RecordVote_needs_a_round (server fresh) (vote "A" None) "identity0"
           fresh); reflexivity.
Defined.


Lemma InstallCommitted_undecodable_witness :
  ∃ line, Propagate (server voting) (MsgUpdateSkipBlock junk)
          = Returns (server voting, [line]).
Proof.
  apply (InstallCommitted_undecodable (server voting) junk "identity0" voting
           {| sb_Hash := Some "block0002"; sb_Data := "junk" |});
    try reflexivity.
  intros al. vm_compute. discriminate.
Defined.

Lemma ProposeSend_reaches_all_witness :
  ∃ n' warnings,
    ProposeSend (net_of voting) {| ps_ID := id0; ps_Config := Some C0 |}
    = Run [Broadcast (MsgProposeSend {| ps_ID := id0; ps_Config := Some C0 |})]
          (Returns (n', warnings, inr ())) ∧
    length (members n') = 3%nat.
Proof.
  destruct (ProposeSend_reaches_all (net_of voting)
              {| ps_ID := id0; ps_Config := Some C0 |} "identity0" voting root0)
    as (n' & warnings & Hrun & Hlen & _); [reflexivity..|].
  by exists n', warnings.
Defined.

Lemma ProposeSend_then_ProposeFetch_witness :
  ∃ n' warnings,
    ProposeSend (net_of fresh) {| ps_ID := id0; ps_Config := Some C1 |}
    = Run [Broadcast (MsgProposeSend {| ps_ID := id0; ps_Config := Some C1 |})]
          (Returns (n', warnings, inr ())) ∧
    ProposeFetch n' {| pf_ID := id0; pf_AccountList := None |}
    = Run [] (Returns (n', inr {| pf_ID := id0; pf_AccountList := Some C1 |})).
Proof.
  destruct (ProposeSend_then_ProposeFetch (net_of fresh)
              {| ps_ID := id0; ps_Config := Some C1 |} "identity0" fresh root0)
    as (n' & warnings & Hrun & Hfetch & _); [reflexivity..|].
  exists n', warnings. split; [done|]. apply Hfetch.
Defined.

Lemma unknown_identity_is_turned_away_witness :
  ProposeVote net0 (vote "A" None)
  = Run [] (Returns (net0, inl "Didn't find identity")).
Proof.
  destruct (unknown_identity_is_turned_away net0 id0 eq_refl) as [Hvote _].
  by apply Hvote.
Defined.

Lemma ProposeVote_rejects_bad_signature_witness :
  ∃ n' sid',
    ProposeVote (net_of voting) (vote "B" (Some "forged"))
    = Run [] (Returns (n', inl "Wrong signature: invalid")) ∧
    getIdentityStorage (self n') id0 = Some sid' ∧
    Votes sid' = Votes voting.
Proof.
  destruct (ProposeVote_rejects_bad_signature (net_of voting)
              (vote "B" (Some "forged")) voting C0 C1 "pkB" "digest"
              "forged" "invalid")
    as (n' & sid' & Hrun & _ & Hsid & Hvotes & _); [reflexivity..|].
  by exists n', sid'.
Defined.

Lemma local_error_leaves_mutex_held_witness :
  ProposeVote (with_self (net_of voting) (server (with_lock true voting)))
    (vote "B" None)
  = Run [] Blocks.
Proof.
  destruct (local_error_leaves_mutex_held (net_of voting)
              (with_self (net_of voting) (server (with_lock true voting)))
              (vote "A" (Some "pkAdigest")) voting DuplicateVote)
    as (_ & Hvote & _); [reflexivity..|].
  by apply Hvote.
Defined.

Lemma ProposeVote_commit_installs_everywhere_witness :
  ∃ n'',
    ProposeVote (net_of voting) (vote "B" None)
    = Run [Broadcast (MsgProposeVote (vote "B" None));
           Append (Some root0) (Some data0) (Some C1);
           Broadcast (MsgUpdateSkipBlock committed)]
          (Returns (n'', inr (Some data1))) ∧
    length (members n'') = 3%nat.
Proof.
  destruct (ProposeVote_commit_installs_everywhere (net_of voting)
              (vote "B" None) "identity0" voting C0 C1 root0 data1
              {[ "A" := Some "pkAdigest" ]} "pkB" "digest" C1)
    as (n'' & Hrun & Hlen & _);
    [solve [reflexivity | exact I | left; vm_compute; discriminate]..|].
  by exists n''.
Defined.

Lemma no_vote_after_commit_witness :
  ∃ n'' calls,
    ProposeVote (net_of voting) (vote "B" None)
    = Run calls (Returns (n'', inr (Some data1))) ∧
    ProposeVote n'' (vote "A" None) = Run [] Panics.
Proof.
  destruct (no_vote_after_commit (net_of voting)
              (vote "B" None) "identity0" voting C0 C1 root0 data1
              {[ "A" := Some "pkAdigest" ]} "pkB" "digest" C1)
    as (n'' & calls & Hrun & _ & Hnext);
    [solve [reflexivity | exact I | left; vm_compute; discriminate]..|].
  exists n'', calls. split; [done|]. by apply Hnext.
Defined.

Lemma ledger_error_keeps_vote_witness :
  ∃ n' n'',
    @ProposeVote ext_engine_down (net_of voting) (vote "B" None)
    = Run [Broadcast (MsgProposeVote (vote "B" None));
           Append (Some root0) (Some data0) (Some C1)]
          (Returns (n', inl "engine down")) ∧
    @ProposeVote ext_engine_down n' (vote "B" None)
    = Run [] (Returns (n'', inl DuplicateVote)).
Proof.
  destruct (@ledger_error_keeps_vote ext_engine_down (net_of voting)
              (vote "B" None) "identity0" voting C0 C1 root0
              {[ "A" := Some "pkAdigest" ]} "pkB" "digest" "engine down")
    as (n' & n'' & Hrun & _ & Hagain);
    [solve [reflexivity | exact I | left; vm_compute; discriminate]..|].
  by exists n', n''.
Defined.

Lemma low_threshold_commits_at_once_witness :
  commit_fired (trace (ProposeVote (net_of solo) (vote "A" None))) = true.
Proof.
  apply (low_threshold_commits_at_once (net_of solo) (vote "A" None)
           "identity0" solo C_solo C1 root0 ∅ "pkA" "digest");
    [reflexivity..|exact I|reflexivity|vm_compute; discriminate].
Defined.

Lemma vote_below_quorum_witness :
  ∃ n' sid',
    ProposeVote (net_of opened) (vote "A" None)
    = Run [Broadcast (MsgProposeVote (vote "A" None))] (Returns (n', inr None)) ∧
    getIdentityStorage (self n') id0 = Some sid' ∧
    len_Votes sid' = (len_Votes opened + 1)%Z.
Proof.
  destruct (vote_below_quorum (net_of opened) (vote "A" None) "identity0"
              opened C0 C1 root0 ∅ "pkA" "digest")
    as (n' & sid' & votes' & Hrun & Hsid & _ & _ & Hlen & _);
    [reflexivity..|exact I|reflexivity|by vm_compute|].
  by exists n', sid'.
Defined.

Lemma AddIdentity_installs_everywhere_witness :
  ∃ n' warnings,
    AddIdentity net0 {| ai_Config := Some C0 |}
    = Run [NewRoster; NewData root0 (Some C0);
           Broadcast (MsgPropagateIdentity (Some fresh))]
          (Returns (n', warnings, inr (root0, data0))) ∧
    ConfigUpdate n' {| cu_ID := id0; cu_AccountList := None |}
    = Run [] (Returns (n', inr {| cu_ID := id0; cu_AccountList := Some C0 |})).
Proof.
  destruct (AddIdentity_installs_everywhere net0 {| ai_Config := Some C0 |}
              C0 root0 root0 data0)
    as (n' & warnings & Hrun & _ & _ & Hcu & _);
    [reflexivity..|vm_compute; lia|reflexivity|].
  exists n', warnings. split; [done|]. apply Hcu.
Defined.

Lemma AddIdentity_failures_change_nothing_witness :
  @AddIdentity ext_engine_down net0 {| ai_Config := Some C0 |}
  = Run [NewRoster] (Returns (net0, [], inl "engine down")).
Proof.
  destruct (@AddIdentity_failures_change_nothing ext_engine_down net0
              {| ai_Config := Some C0 |} "engine down") as [Hroot _].
  by apply Hroot.
Defined.

End DeploymentFurther.
